(** * HistomicsDetect: the coordinate mapper, the region pooler and the
      Faster R-CNN training step

    A shallow embedding of [histomics_detect/models/faster_rcnn.py] and
    [roialign/roialign.py].

    Conventions of the embedding.
    - A TensorFlow tensor is a shape together with its flat, row-major
      buffer ([tensor]); [tf_reshape] and [tf_gather_nd] work on that
      buffer the way the kernels do.
    - [float32] scalars are exact rationals ([Q]); computed values are
      compared with [Qeq] ([==]), moved values with [=]. Rounding is not
      modelled, nor the infinities and NaN of a division by zero: the
      statements about grid positions take a positive [field].
    - [int32] values are [Z]; the float-to-int cast truncates toward zero.
    - A Python exception is a [Raise] in the [result] monad; the statements
      of [train_step] are taken in program order, and [tf_function] says
      what its decorator makes of an exception.
    - Functions the two files import but do not define (networks, anchor
      filtering and sampling, box transforms, IoU, losses, the optimizer,
      the tape's differentiation, bilinear interpolation) are fields of
      records handed to the code that calls them. *)

From Stdlib Require Import ZArith QArith Qround Lia Lqa.
From stdpp Require Import base option list list_numbers strings gmap.

Open Scope Z_scope.

(** ** Exceptions and the result monad *)

Inductive error : Type :=
  | InvalidArgumentError (op : string)  (* raised by a TensorFlow kernel *)
  | NameError (name : string)           (* a free name with no binding *)
  | ValueError (what : string)          (* e.g. tuple unpacking *)
  | IndexError (what : string)
  | CollaboratorError (who : string).   (* raised inside imported code *)

(** Who raises an error: a kernel, when the operation runs, or Python
    itself, when the statement is interpreted. *)
Definition raised_by_python (e : error) : bool :=
  match e with
  | InvalidArgumentError _ => false
  | NameError _ | ValueError _ | IndexError _ | CollaboratorError _ => true
  end.

Inductive result (A : Type) : Type :=
  | Ok (a : A)
  | Raise (e : error).
Arguments Ok {A} a.
Arguments Raise {A} e.

#[global] Instance result_ret : MRet result := fun A a => Ok a.
#[global] Instance result_bind : MBind result := fun A B f m =>
  match m with
  | Ok a => f a
  | Raise e => Raise e
  end.
#[global] Instance result_fmap : FMap result := fun A B f m =>
  match m with
  | Ok a => Ok (f a)
  | Raise e => Raise e
  end.

Definition raises {A} (m : result A) : Prop :=
  match m with Ok _ => False | Raise _ => True end.

Definition or_raise {A} (e : error) (o : option A) : result A :=
  match o with Some a => Ok a | None => Raise e end.

(** ** Tensors *)

Record tensor (T : Type) : Type := Tensor { shape : list Z; data : list T }.
Arguments Tensor {T} shape data.
Arguments shape {T} t.
Arguments data {T} t.

(** Number of elements of a shape. *)
Definition numel (s : list Z) : Z := foldr Z.mul 1 s.

(** A tensor a TensorFlow program can hold: non-negative [int32]
    dimensions and a buffer of the matching length. *)
Definition int32_max : Z := 2147483647.
Definition int32_min : Z := -2147483648.

Definition wf_tensor {T} (t : tensor T) : Prop :=
  Forall (fun d => 0 <= d <= int32_max) (shape t) /\
  Z.of_nat (length (data t)) = numel (shape t).

(** Row-major offset of a multi-index among the leading dimensions
    [dims]; [None] when a coordinate is out of range or the index is
    longer than [dims]. *)
Fixpoint ravel (dims idx : list Z) (acc : Z) {struct idx} : option Z :=
  match idx with
  | [] => Some acc
  | i :: idx' =>
      match dims with
      | [] => None
      | d :: dims' =>
          if (0 <=? i) && (i <? d) then ravel dims' idx' (acc * d + i)
          else None
      end
  end.

(** [t[i0, ..., in]] for a full index. *)
Definition tget {T} (t : tensor T) (idx : list Z) : option T :=
  if decide (length idx = length (shape t)) then
    off ← ravel (shape t) idx 0; data t !! Z.to_nat off
  else None.

(** [tf.reshape]: at most one dimension may be [-1] and is inferred; the
    element count must be preserved. *)
Definition infer_dim (n : Z) (s : list Z) : option (list Z) :=
  match List.filter (Z.eqb (-1)) s with
  | [] => Some s
  | [_] =>
      let known := numel (List.filter (fun d => negb (-1 =? d)) s) in
      if known =? 0 then None
      else Some ((fun d => if -1 =? d then n / known else d) <$> s)
  | _ => None
  end.

Definition tf_reshape {T} (t : tensor T) (s : list Z) : result (tensor T) :=
  match infer_dim (Z.of_nat (length (data t))) s with
  | Some s' =>
      if forallb (fun d => 0 <=? d) s' &&
         (numel s' =? Z.of_nat (length (data t)))
      then Ok (Tensor s' (data t))
      else Raise (InvalidArgumentError "Reshape")
  | None => Raise (InvalidArgumentError "Reshape")
  end.

(** [tf.gather_nd params indices] for a matrix of indices, one row per
    gathered slice. An out-of-range coordinate raises. *)
Definition gather_slice {T} (params : tensor T) (idx : list Z)
  : result (list T) :=
  match ravel (shape params) idx 0 with
  | Some off =>
      let inner := numel (drop (length idx) (shape params)) in
      Ok (take (Z.to_nat inner) (drop (Z.to_nat (off * inner)) (data params)))
  | None => Raise (InvalidArgumentError "GatherNd")
  end.

Fixpoint gather_rows {T} (params : tensor T) (indices : list (list Z))
  : result (list T) :=
  match indices with
  | [] => Ok []
  | idx :: rest =>
      row ← gather_slice params idx;
      rows ← gather_rows params rest;
      Ok (row ++ rows)
  end.

Definition tf_gather_nd {T} (params : tensor T) (depth : nat)
    (indices : list (list Z)) : result (tensor T) :=
  buf ← gather_rows params indices;
  Ok (Tensor (Z.of_nat (length indices) :: drop depth (shape params)) buf).

(** [tf.cast(x, tf.int32)] of a float: truncation toward zero; a value
    outside the [int32] range yields the indefinite value [int32_min]. *)
Definition Qtruncate (q : Q) : Z := Z.quot (Qnum q) (Z.pos (Qden q)).

Definition cast_int32 (q : Q) : Z :=
  let z := Qtruncate q in
  if (int32_min <=? z) && (z <=? int32_max) then z else int32_min.

(** [tf.argmax(tf.equal(x, v), output_type=tf.int32)]: index of the first
    [True]; an all-[False] vector has its maximum at index 0. The kernel
    rejects an empty vector. *)
Fixpoint first_true (bs : list bool) (i : Z) : option Z :=
  match bs with
  | [] => None
  | b :: bs' => if b then Some i else first_true bs' (i + 1)
  end.

Definition argmax_equal (x : Z) (v : list Z) : result Z :=
  match v with
  | [] => Raise (InvalidArgumentError "ArgMax")
  | _ => Ok (default 0 (first_true ((fun a => x =? a) <$> v) 0))
  end.

(** [tf.map_fn] of a fallible function over a vector. *)
Fixpoint map_fn {A B} (f : A -> result B) (xs : list A) : result (list B) :=
  match xs with
  | [] => Ok []
  | x :: xs' => y ← f x; ys ← map_fn f xs'; Ok (y :: ys)
  end.

(** [tf.stack([a, b, c, d], axis=1)] of four vectors of one length. *)
Fixpoint stack4 (a b c d : list Z) : list (list Z) :=
  match a, b, c, d with
  | x :: a', y :: b', z :: c', w :: d' => [x; y; z; w] :: stack4 a' b' c' d'
  | _, _, _, _ => []
  end.

(** ** Boxes *)

(** One row of an [N x 4] box tensor: columns 0 to 3. For an anchor
    [(bx, by)] is its centre, for a regressed box its upper-left corner;
    column 2 is the width and column 3 the height. *)
Record box : Type := Box { bx : Q; by_ : Q; bw : Q; bh : Q }.

(** ** [map_outputs] (faster_rcnn.py, lines 13-68) *)

Definition anchor_index (anchor_px : list Z) (anchors : list box)
  : result (list Z) :=
  map_fn (fun x => argmax_equal x anchor_px) (cast_int32 <$> (bh <$> anchors)).

(** Lines 51-52, for one coordinate; [field], the side of a receptive
    field, is positive. *)
Definition anchor_px_pos (field : Q) (c : Q) : Z :=
  cast_int32 ((c - field / 2) / field)%Q.

(** The shape handed to [tf.reshape]: [shape[0:-1]], then [k], then
    [shape[-1] / k], the quotient brought back to an integer; a zero [k]
    leaves no valid shape. *)
Definition split_shape (s : list Z) (k : Z) : result (list Z) :=
  match last s with
  | None => Raise (IndexError "shape[-1]")
  | Some d =>
      if decide (k = 0) then Raise (InvalidArgumentError "Div")
      else Ok (removelast s ++ [k] ++ [d / k])
  end.

Definition map_outputs {T} (output : tensor T) (anchors : list box)
    (anchor_px : list Z) (field : Q) : result (tensor T) :=
  (* anchor size index for each matching anchor *)
  index ← anchor_index anchor_px anchors;
  (* positions of anchors in rpn output *)
  let px := anchor_px_pos field <$> (bx <$> anchors) in
  let py := anchor_px_pos field <$> (by_ <$> anchors) in
  (* new dimension to split outputs by anchor (batch, y, x, anchor, output) *)
  s ← split_shape (shape output) (Z.of_nat (length anchor_px));
  reshaped ← tf_reshape output s;
  (* gather to a 2D array where each row is an anchor *)
  tf_gather_nd reshaped 4
    (stack4 (replicate (length px) 0) py px index).

(** ** [_roialign_coords] (roialign.py, lines 5-54) *)

(** [tf.range(0.0, n)], for a limit [n] that is not negative. *)
Definition tf_range (n : Z) : list Q := inject_Z <$> seqZ 0 n.

(** An [n x 2] array as the list of its rows, and its flat buffer. *)
Definition rows2 (ps : list (Q * Q)) : list Q := ps ≫= fun p => [p.1; p.2].

Definition add2 (p q : Q * Q) : Q * Q := ((p.1 + q.1)%Q, (p.2 + q.2)%Q).

Definition _roialign_coords (b : box) (n_points : Z) : tensor Q :=
  (* a sequence of the indices of sample locations *)
  let indices := tf_range n_points in
  let size := inject_Z (Z.of_nat (length indices)) in
  (* horizontal, vertical spacings between samples (in pixels) *)
  let delta_width := (bw b / size)%Q in
  let delta_height := (bh b / size)%Q in
  (* vertical and horizontal positions of sample locations *)
  let x_offset := (fun i => delta_width / 2 + delta_width * i)%Q <$> indices in
  let y_offset := (fun i => delta_height / 2 + delta_height * i)%Q <$> indices in
  (* combinations of all pairs of x, y offsets *)
  let x_offset := (fun x => (x, 0%Q)) <$> x_offset in
  let y_offset := (fun y => (0%Q, y)) <$> y_offset in
  let offsets := (fun yr => (fun xr => add2 xr yr) <$> x_offset) <$> y_offset in
  let dim0 := Z.of_nat (length offsets) in
  let dim1 := Z.of_nat (length x_offset) in
  let offsets := mjoin offsets in
  (* add offsets to box corner x,y coordinates *)
  let sample := (fun p => add2 p (bx b, by_ b)) <$> offsets in
  Tensor [dim0 * dim1; 2] (rows2 sample).

(** ** [roialign] (roialign.py, lines 57-119) *)

Definition tmap {A B} (f : A -> B) (t : tensor A) : tensor B :=
  Tensor (shape t) (f <$> data t).

(** [tf.vectorized_map]: the per-row results, all of the traced shape
    [elem], stacked along a new leading axis. *)
Definition vectorized_map {A T} (f : A -> tensor T) (elem : list Z)
    (xs : list A) : tensor T :=
  Tensor (Z.of_nat (length xs) :: elem) (mjoin ((fun x => data (f x)) <$> xs)).

Section Roialign.
(** [tfa.image.interpolate_bilinear(grid, query_points, indexing='xy')]. *)
Variable interpolate_bilinear : tensor Q -> tensor Q -> result (tensor Q).

Definition roialign (features : tensor Q) (boxes : list box) (field : Q)
    (pool tiles : Z) : result (tensor Q) :=
  (* pixel coordinates of box sampling locations *)
  let coords := fun x => _roialign_coords x (tiles * pool) in
  let offsets := vectorized_map coords (shape (coords (Box 0 0 0 0))) boxes in
  (* from pixel coordinates to feature map / receptive field coordinates *)
  let offsets := tmap (fun o => (o - field / 2) / field)%Q offsets in
  offsets ← tf_reshape offsets [1; -1; 2];
  (* bilinear interpolation *)
  interpolated ← interpolate_bilinear features offsets;
  (* first dimension the box id, second/third the spatial dimensions of
     the subdivided box, last the feature *)
  channels ← or_raise (IndexError "shape[-1]") (last (shape features));
  tf_reshape interpolated
    [Z.of_nat (length boxes); pool * tiles; pool * tiles; channels].
End Roialign.

(** A reference bilinear interpolation with the collaborator's interface:
    [x]-then-[y] query points on a [1 x H x W x C] grid, the cell clamped
    to the grid and the weights to [0, 1]; grids under 2 x 2 are refused. *)
Definition clamp01 (q : Q) : Q :=
  if Qle_bool q 0 then 0%Q else if Qle_bool 1 q then 1%Q else q.

Definition bilinear_point (grid : tensor Q) (h w ch : Z) (x y : Q) : list Q :=
  let fy := Z.min (Z.max 0 (Qfloor y)) (h - 2) in
  let fx := Z.min (Z.max 0 (Qfloor x)) (w - 2) in
  let ay := clamp01 (y - inject_Z fy) in
  let ax := clamp01 (x - inject_Z fx) in
  let at_ := fun r c k => default 0%Q (tget grid [0; r; c; k]) in
  (fun k =>
     let tl := at_ fy fx k in
     let tr := at_ fy (fx + 1) k in
     let bl := at_ (fy + 1) fx k in
     let br := at_ (fy + 1) (fx + 1) k in
     let top := (ax * (tr - tl) + tl)%Q in
     let bottom := (ax * (br - bl) + bl)%Q in
     (ay * (bottom - top) + top)%Q) <$> seqZ 0 ch.

Fixpoint pairs_of {A} (l : list A) : list (A * A) :=
  match l with
  | x :: y :: l' => (x, y) :: pairs_of l'
  | _ => []
  end.

Definition bilinear_xy (grid queries : tensor Q) : result (tensor Q) :=
  match shape grid, shape queries with
  | [1; h; w; ch], [1; m; 2] =>
      if (2 <=? h) && (2 <=? w) then
        Ok (Tensor [1; m; ch]
              (pairs_of (data queries) ≫=
                 fun p => bilinear_point grid h w ch p.1 p.2))
      else Raise (ValueError "Grid must be at least 2 x 2")
  | _, _ => Raise (ValueError "interpolate_bilinear")
  end.

(** ** Keras objects the model holds *)

(** A network: its trainable variables, by name, and its forward pass as a
    function of the variables' values. *)
Record Network (O : Type) : Type := {
  trainable_weights : list string;
  call : gmap string Q -> tensor Q -> result O
}.
Arguments trainable_weights {O} n.
Arguments call {O} n W x.

(** A running metric: what [update_state] has been given so far, and the
    reduction [result()] applies to it. *)
Record Metric : Type := {
  name : string;
  observed : list (list (tensor Q));
  reduce : list (list (tensor Q)) -> Q
}.

Definition update_state (m : Metric) (args : list (tensor Q)) : Metric :=
  {| name := name m; observed := observed m ++ [args]; reduce := reduce m |}.

Definition metric_result (m : Metric) : Q := reduce m (observed m).

(** An optimizer: [apply_gradients] first validates its argument, in
    Python, and may refuse it with a [ValueError] ([validate] gives the
    message); then it updates every listed variable that has a
    gradient. *)
Record Optimizer : Type := {
  validate : list (option Q * string) -> option string;
  update_step : Z -> string -> Q -> Q -> Q
}.

(** ** The mutable state of a training step and its monad *)

Record train_state : Type := {
  weights : gmap string Q;       (* values of all trainable variables *)
  iterations : Z;                (* [apply_gradients] calls made so far *)
  standard : list Metric         (* self.standard *)
}.

(** A statement either returns or raises; the state reached is kept in
    both cases. *)
Definition M (A : Type) : Type := train_state -> result A * train_state.

#[global] Instance M_ret : MRet M := fun A a st => (Ok a, st).
#[global] Instance M_bind : MBind M := fun A B f m st =>
  match m st with
  | (Ok a, st') => f a st'
  | (Raise e, st') => (Raise e, st')
  end.

Definition lift {A} (r : result A) : M A := fun st => (r, st).
Definition get_weights : M (gmap string Q) := fun st => (Ok (weights st), st).
Definition get_standard : M (list Metric) := fun st => (Ok (standard st), st).

Definition apply_gradient (opt : Optimizer) (it : Z) (W : gmap string Q)
    (gv : option Q * string) : gmap string Q :=
  match gv.1 with
  | Some g => alter (update_step opt it gv.2 g) gv.2 W
  | None => W
  end.

Definition apply_gradients (opt : Optimizer)
    (grads_and_vars : list (option Q * string)) : M unit := fun st =>
  match validate opt grads_and_vars with
  | Some msg => (Raise (ValueError msg), st)
  | None =>
      (Ok (),
       {| weights := foldl (apply_gradient opt (iterations st)) (weights st)
                       grads_and_vars;
          iterations := iterations st + 1;
          standard := standard st |})
  end.

(** [self.standard[i].update_state(args)]. *)
Definition standard_update (i : nat) (args : list (tensor Q)) : M unit :=
  fun st =>
  match standard st !! i with
  | None => (Raise (IndexError "standard"), st)
  | Some m =>
      (Ok (),
       {| weights := weights st; iterations := iterations st;
          standard := <[i := update_state m args]> (standard st) |})
  end.

(** [@tf.function]: the decorated function is traced before any of its
    operations runs. An exception Python raises while the body is traced
    (a free name, a failed unpacking, a list index out of range, the
    optimizer refusing its argument) reaches the caller with nothing
    run: the state is the one before the call. A kernel raises while the
    traced operations run, and what has run before it stays. The
    statements are taken in program order in both cases. *)
Definition tf_function {A} (body : M A) : M A := fun st =>
  match body st with
  | (Ok a, st') => (Ok a, st')
  | (Raise e, st') => (Raise e, if raised_by_python e then st else st')
  end.

(** ** Imported functions *)

Record Externals : Type := {
  create_anchors : list Z -> Q -> Z -> Z -> list box;
  filter_anchors : list box -> list box -> result (list box * list box);
  sample_anchors : list box -> list box -> result (list box * list box);
  parameterize : list box -> list box -> result (tensor Q);
  unparameterize : tensor Q -> list box -> result (list box);
  iou : list box -> list box -> result (tensor Q * tensor Q);
  fast_rcnn : Network (tensor Q) -> Z -> Z -> Network (tensor Q);
  field_size : Network (tensor Q) -> Q;
  interpolate_bilinear : tensor Q -> tensor Q -> result (tensor Q);
  (* tf.keras.applications.resnet.preprocess_input, tf.nn.softmax,
     tf.reduce_max *)
  preprocess_input : tensor Q -> tensor Q;
  softmax : tensor Q -> tensor Q;
  reduce_max : tensor Q -> Q;
  (* tape.gradient(target, sources), one source at a time: the derivative
     of the recorded target, a function of the variables, at their
     recorded values; [None] for an unconnected source *)
  tape_gradient : (gmap string Q -> result Q) -> gmap string Q -> string
                  -> option Q;
  (* the reductions of tf.keras.metrics and the name Keras gives a metric
     constructed without one *)
  Mean : list (list (tensor Q)) -> Q;
  AUC : string -> list (list (tensor Q)) -> Q;
  TruePositives : list (list (tensor Q)) -> Q;
  FalseNegatives : list (list (tensor Q)) -> Q;
  FalsePositives : list (list (tensor Q)) -> Q;
  default_name : string -> string
}.

(** ** Small TensorFlow operations used by the training step *)

Definition tf_expand_dims0 {T} (t : tensor T) : tensor T :=
  Tensor (1 :: shape t) (data t).

(** [tf.shape(t)[0]]. *)
Definition shape0 {T} (t : tensor T) : result Z :=
  or_raise (IndexError "shape[0]") (head (shape t)).

(** [tf.ones(n, tf.uint8)] and [tf.zeros(n, tf.uint8)]. *)
Definition tf_ones (n : Z) : tensor Q := Tensor [n] (replicate (Z.to_nat n) 1%Q).
Definition tf_zeros (n : Z) : tensor Q := Tensor [n] (replicate (Z.to_nat n) 0%Q).

(** [tf.concat([a, b], axis=0)]. *)
Definition tf_concat0 {T} (a b : tensor T) : result (tensor T) :=
  match shape a, shape b with
  | n :: sa, m :: sb =>
      if decide (sa = sb) then Ok (Tensor (n + m :: sa) (data a ++ data b))
      else Raise (InvalidArgumentError "ConcatV2")
  | _, _ => Raise (InvalidArgumentError "ConcatV2")
  end.

(** [tf.one_hot(labels, 2)] of a vector of labels. *)
Definition tf_one_hot2 (labels : tensor Q) : tensor Q :=
  Tensor (shape labels ++ [2])
    (data labels ≫= fun l =>
       [if Qeq_bool l 0 then 1%Q else 0%Q; if Qeq_bool l 1 then 1%Q else 0%Q]).

(** [t[:, j]] of a matrix. *)
Definition column {T} (t : tensor T) (j : Z) : result (tensor T) :=
  match shape t with
  | [n; c] =>
      if (0 <=? j) && (j <? c) then
        Ok (Tensor [n]
              (omap (fun i => data t !! Z.to_nat (i * c + j)) (seqZ 0 n)))
      else Raise (InvalidArgumentError "StridedSlice")
  | _ => Raise (InvalidArgumentError "StridedSlice")
  end.

Definition scalar (q : Q) : tensor Q := Tensor [] [q].

(** A Python dict built by inserting the items in order: a later item
    with the same key replaces the earlier one. *)
Definition dict_of {V} (items : list (string * V)) : gmap string V :=
  foldl (fun d kv => <[kv.1 := kv.2]> d) ∅ items.

(** ** [FasterRCNN] (faster_rcnn.py, lines 71-219) *)

Record FasterRCNN : Type := {
  rpnetwork : Network (list (tensor Q));
  backbone : Network (tensor Q);
  fastrcnn : Network (tensor Q);
  field : Q;
  anchor_px : list Z;
  lmbda : Q;
  pool : Z;
  tiles : Z;
  anchors : list box;
  (* set by [compile] *)
  loss : list (tensor Q -> tensor Q -> result Q);
  optimizer : Optimizer
}.

(** The metrics [__init__] stores in [self.standard] (lines 94-102). *)
Definition init_standard (ext : Externals) : list Metric :=
  let mae_xy := {| name := "mean_iou_rpn"; observed := []; reduce := Mean ext |} in
  let mae_wh := {| name := "mean_iou_align"; observed := []; reduce := Mean ext |} in
  let auc_roc := {| name := "auc_roc"; observed := []; reduce := AUC ext "ROC" |} in
  let auc_pr := {| name := "pr_roc"; observed := []; reduce := AUC ext "PR" |} in
  let tp := {| name := default_name ext "TruePositives"; observed := [];
               reduce := TruePositives ext |} in
  let fn := {| name := default_name ext "FalseNegatives"; observed := [];
               reduce := FalseNegatives ext |} in
  let fp := {| name := default_name ext "FalsePositives"; observed := [];
               reduce := FalsePositives ext |} in
  [mae_xy; mae_wh; auc_roc; auc_pr; tp; fn; fp].

(** [__init__] followed by [compile(optimizer, loss)]. *)
Definition init (ext : Externals) (rpnetwork : Network (list (tensor Q)))
    (backbone : Network (tensor Q)) (shape : Z * Z) (anchor_px : list Z)
    (lmbda : Q) (pool tiles : Z)
    (optimizer : Optimizer) (loss : list (tensor Q -> tensor Q -> result Q))
  : FasterRCNN :=
  let field := field_size ext backbone in
  {| rpnetwork := rpnetwork;
     backbone := backbone;
     fastrcnn := fast_rcnn ext backbone tiles pool;
     field := field;
     anchor_px := anchor_px;
     lmbda := lmbda;
     pool := pool;
     tiles := tiles;
     anchors := create_anchors ext anchor_px field shape.1 shape.2;
     loss := loss;
     optimizer := optimizer |}.

(** The argument of [train_step]: a sequence of two or three items, or of
    some other length. *)
Inductive train_data : Type :=
  | Data2 (rgb : tensor Q) (boxes : list box)
  | Data3 (rgb : tensor Q) (boxes : list box) (sample_weight : tensor Q)
  | DataN (n : nat).

Definition unpack (d : train_data) : result (tensor Q * list box) :=
  match d with
  | Data3 rgb boxes _ => Ok (rgb, boxes)
  | Data2 rgb boxes => Ok (rgb, boxes)
  | DataN _ => Raise (ValueError "unpack")
  end.

(** What the step holds when it opens the tape (lines 107-126). *)
Record Inputs : Type := {
  norm : tensor Q;
  boxes : list box;
  positive_anchors : list box;
  negative_anchors : list box
}.

(** What the proposal stage computes under the tape (lines 131-157). *)
Record Proposal : Type := {
  features : tensor Q;
  rpn_obj_positive : tensor Q;
  rpn_obj_negative : tensor Q;
  rpn_reg : tensor Q;
  rpn_obj_labels : tensor Q;
  rpn_obj_loss : Q;
  rpn_reg_loss : Q;
  rpn_total_loss : Q
}.

(** What the refinement stage computes under the tape before its loss
    (lines 159-168). *)
Record Refinement : Type := {
  rpn_boxes : list box;
  rpn_boxes_positive : list box;
  align_reg : tensor Q;
  align_boxes : list box;
  align_reg_label : tensor Q
}.

Section TrainStep.
Variable ext : Externals.
(** The module's global names. *)
Variable globals : gmap string FasterRCNN.
Variable self : FasterRCNN.

Definition prepare (data : train_data) : result Inputs :=
  (* unpack input features and labels *)
  unpacked ← unpack data;
  (* convert boxes from RaggedTensor *)
  let boxes := unpacked.2 in
  (* normalize image, expand dimensions *)
  let norm := preprocess_input ext unpacked.1 in
  let norm := tf_expand_dims0 norm in
  (* filter and sample anchors *)
  filtered ← filter_anchors ext boxes (anchors self);
  sampled ← sample_anchors ext filtered.1 filtered.2;
  Ok {| norm := norm; boxes := boxes;
        positive_anchors := sampled.1; negative_anchors := sampled.2 |}.

Definition proposal_stage (inp : Inputs) (W : gmap string Q)
  : result Proposal :=
  let boxes := boxes inp in
  let positive_anchors := positive_anchors inp in
  let negative_anchors := negative_anchors inp in
  (* predict and capture intermediate features *)
  features ← call (backbone self) W (norm inp);
  output ← call (rpnetwork self) W features;
  output0 ← or_raise (IndexError "output[0]") (output !! 0%nat);
  output1 ← or_raise (IndexError "output[1]") (output !! 1%nat);
  (* transform outputs to 2D arrays with anchors in rows *)
  rpn_obj_positive ← softmax ext <$>
    map_outputs output0 positive_anchors (anchor_px self) (field self);
  rpn_obj_negative ← softmax ext <$>
    map_outputs output0 negative_anchors (anchor_px self) (field self);
  rpn_reg ← map_outputs output1 positive_anchors (anchor_px self) (field self);
  (* generate objectness and regression labels *)
  n_positive ← shape0 rpn_obj_positive;
  n_negative ← shape0 rpn_obj_negative;
  rpn_obj_labels ← tf_concat0 (tf_ones n_positive) (tf_zeros n_negative);
  rpn_reg_label ← parameterize ext positive_anchors boxes;
  (* calculate objectness and regression losses *)
  loss0 ← or_raise (IndexError "loss[0]") (loss self !! 0%nat);
  rpn_obj ← tf_concat0 rpn_obj_positive rpn_obj_negative;
  rpn_obj_loss ← loss0 rpn_obj (tf_one_hot2 rpn_obj_labels);
  loss1 ← or_raise (IndexError "loss[1]") (loss self !! 1%nat);
  rpn_reg_loss ← loss1 rpn_reg_label rpn_reg;
  (* weighted sum of objectness and regression losses *)
  let rpn_total_loss :=
    (rpn_obj_loss / 256
     + rpn_reg_loss * lmbda self
       / inject_Z (Z.of_nat (length (anchors self))))%Q in
  Ok {| features := features;
        rpn_obj_positive := rpn_obj_positive;
        rpn_obj_negative := rpn_obj_negative;
        rpn_reg := rpn_reg;
        rpn_obj_labels := rpn_obj_labels;
        rpn_obj_loss := rpn_obj_loss;
        rpn_reg_loss := rpn_reg_loss;
        rpn_total_loss := rpn_total_loss |}.

(** Lines 159-168: everything the refinement loss is computed from. *)
Definition refinement_inputs (inp : Inputs) (p : Proposal)
    (W : gmap string Q) : result Refinement :=
  let boxes := boxes inp in
  (* fast r-cnn regression of rpn regressions from positive anchors *)
  rpn_boxes ← unparameterize ext (rpn_reg p) (positive_anchors inp);
  filtered ← filter_anchors ext boxes rpn_boxes;
  let rpn_boxes_positive := filtered.1 in
  interpolated ← roialign (interpolate_bilinear ext) (features p)
                   rpn_boxes_positive (field self) (pool self) (tiles self);
  align_reg ← call (fastrcnn self) W interpolated;
  (* calculate fast r-cnn regression loss *)
  align_boxes ← unparameterize ext align_reg rpn_boxes_positive;
  align_reg_label ← parameterize ext rpn_boxes_positive boxes;
  Ok {| rpn_boxes := rpn_boxes;
        rpn_boxes_positive := rpn_boxes_positive;
        align_reg := align_reg;
        align_boxes := align_boxes;
        align_reg_label := align_reg_label |}.

(** Line 169: [align_reg_loss = model.loss[1](align_reg_label, align_reg)]. *)
Definition refinement_loss (r : Refinement) : result Q :=
  model ← or_raise (NameError "model") (globals !! "model");
  loss1 ← or_raise (IndexError "loss[1]") (loss model !! 1%nat);
  loss1 (align_reg_label r) (align_reg r).

(** The two scalars the tape differentiates, as functions of the
    variables: [rpn_total_loss] and [align_reg_loss]. *)
Definition rpn_total_loss_of (inp : Inputs) (W : gmap string Q) : result Q :=
  rpn_total_loss <$> proposal_stage inp W.

Definition align_reg_loss_of (inp : Inputs) (W : gmap string Q) : result Q :=
  p ← proposal_stage inp W;
  r ← refinement_inputs inp p W;
  refinement_loss r.

(** Lines 107-168 as one computation: what the step has done when it
    reaches the refinement loss. *)
Definition before_refinement_loss (data : train_data) (W : gmap string Q)
  : result Refinement :=
  inp ← prepare data;
  p ← proposal_stage inp W;
  refinement_inputs inp p W.

(** [tape.gradient(target, sources)]. *)
Definition gradient (target : gmap string Q -> result Q)
    (W : gmap string Q) (sources : list string) : list (option Q) :=
  tape_gradient ext target W <$> sources.

(** [train_step] under its decorator (lines 104-219). *)
Definition train_step (data : train_data) : M (gmap string Q) :=
  tf_function (
  inp ← lift (prepare data);
  (* training step, under the tape *)
  W ← get_weights;
  p ← lift (proposal_stage inp W);
  r ← lift (refinement_inputs inp p W);
  align_reg_loss ← lift (refinement_loss r);
  (* calculate backbone gradients and optimize *)
  let gradients :=
    gradient (rpn_total_loss_of inp) W (trainable_weights (backbone self)) in
  _ ← apply_gradients (optimizer self)
        (zip gradients (trainable_weights (backbone self)));
  (* calculate rpn gradients and optimize *)
  let gradients :=
    gradient (rpn_total_loss_of inp) W (trainable_weights (rpnetwork self)) in
  _ ← apply_gradients (optimizer self)
        (zip gradients (trainable_weights (rpnetwork self)));
  (* calculate roialign gradients and optimize *)
  let gradients :=
    gradient (align_reg_loss_of inp) W (trainable_weights (fastrcnn self)) in
  _ ← apply_gradients (optimizer self)
        (zip gradients (trainable_weights (fastrcnn self)));
  let boxes := boxes inp in
  (* ious for rpn, roialign *)
  rpn_ious ← lift (iou ext (rpn_boxes r) boxes);
  let rpn_ious := reduce_max ext rpn_ious.1 in
  align_ious ← lift (iou ext (align_boxes r) boxes);
  let align_ious := reduce_max ext align_ious.1 in
  (* update metrics *)
  _ ← standard_update 0 [scalar rpn_ious];
  _ ← standard_update 1 [scalar align_ious];
  rpn_obj ← lift (tf_concat0 (rpn_obj_positive p) (rpn_obj_negative p));
  scores ← lift (column rpn_obj 1);
  _ ← standard_update 2 [rpn_obj_labels p; scores];
  _ ← standard_update 3 [rpn_obj_labels p; scores];
  _ ← standard_update 4 [rpn_obj_labels p; scores];
  _ ← standard_update 5 [rpn_obj_labels p; scores];
  _ ← standard_update 6 [rpn_obj_labels p; scores];
  (* build output dicts *)
  let losses :=
    dict_of [("rpn_objectness", rpn_obj_loss p);
             ("rpn_regression", rpn_reg_loss p);
             ("align_regression", align_reg_loss)] in
  standard ← get_standard;
  let metrics := dict_of ((fun m => (name m, metric_result m)) <$> standard) in
  mret (metrics ∪ losses)).
End TrainStep.

(** ** [CustomCallback] (faster_rcnn.py, lines 222-230) *)

(** [m.reset_states()]: the metric forgets what it has been given. *)
Definition reset_states (m : Metric) : Metric :=
  {| name := name m; observed := []; reduce := reduce m |}.

(** [self.model.standard[i].reset_states()]. *)
Definition standard_reset (i : nat) : M unit := fun st =>
  match standard st !! i with
  | None => (Raise (IndexError "standard"), st)
  | Some m =>
      (Ok (),
       {| weights := weights st; iterations := iterations st;
          standard := <[i := reset_states m]> (standard st) |})
  end.

(** [on_epoch_end(self, epoch, logs=None)]: the callback's [self.model]
    is the model whose state the monad carries. *)
Definition on_epoch_end (epoch : Z) (logs : option (gmap string Q)) : M unit :=
  _ ← standard_reset 0;
  _ ← standard_reset 1;
  _ ← standard_reset 2;
  _ ← standard_reset 3;
  _ ← standard_reset 4;
  _ ← standard_reset 5;
  standard_reset 6.

(** ** Vocabulary of the statements *)

(** The same model with another refinement network. *)
Definition with_fastrcnn (self : FasterRCNN) (f : Network (tensor Q))
  : FasterRCNN :=
  {| rpnetwork := rpnetwork self; backbone := backbone self; fastrcnn := f;
     field := field self; anchor_px := anchor_px self; lmbda := lmbda self;
     pool := pool self; tiles := tiles self; anchors := anchors self;
     loss := loss self; optimizer := optimizer self |}.

(** The variables after the three [apply_gradients] calls of a step that
    started from [W] at iteration [it] (lines 171-184). *)
Definition step_weights (ext : Externals) (globals : gmap string FasterRCNN)
    (self : FasterRCNN) (inp : Inputs) (W : gmap string Q) (it : Z)
  : gmap string Q :=
  let opt := optimizer self in
  let bw := trainable_weights (backbone self) in
  let rw := trainable_weights (rpnetwork self) in
  let fw := trainable_weights (fastrcnn self) in
  let W1 := foldl (apply_gradient opt it) W
              (zip (gradient ext (rpn_total_loss_of ext self inp) W bw) bw) in
  let W2 := foldl (apply_gradient opt (it + 1)) W1
              (zip (gradient ext (rpn_total_loss_of ext self inp) W rw) rw) in
  foldl (apply_gradient opt (it + 2)) W2
    (zip (gradient ext (align_reg_loss_of ext globals self inp) W fw) fw).

(** The state [apply_gradients] and [update_state] leave. *)
Definition applied (opt : Optimizer) (gv : list (option Q * string))
    (st : train_state) : train_state :=
  {| weights := foldl (apply_gradient opt (iterations st)) (weights st) gv;
     iterations := iterations st + 1;
     standard := standard st |}.

Definition observes (i : nat) (args : list (tensor Q)) (st : train_state)
  : train_state :=
  {| weights := weights st; iterations := iterations st;
     standard := alter (fun m => update_state m args) i (standard st) |}.

(** What one [apply_gradients] call makes of a variable it lists once. *)
Definition updated (opt : Optimizer) (it : Z) (v : string) (g : option Q)
    (old : option Q) : option Q :=
  match g with
  | Some g => update_step opt it v g <$> old
  | None => old
  end.

Definition is_int32 (z : Z) : Prop := int32_min <= z <= int32_max.

(** The slot the size lookup of [map_outputs] yields for an [int32] size. *)
Definition slot_of (anchor_px : list Z) (x : Z) : Z :=
  default 0 (first_true ((fun a => x =? a) <$> anchor_px) 0).

(** The grid coordinate of a pixel coordinate, with the floor. *)
Definition cell_of (field c : Q) : Z := Qfloor ((c - field / 2) / field)%Q.

(** Where the slice gathered for a candidate starts in the grid's buffer,
    counted in slices, and the slice itself. *)
Definition slice_offset (anchor_px : list Z) (field : Q) (C : Z) (a : box) : Z :=
  (cell_of field (by_ a) * C + cell_of field (bx a))
  * Z.of_nat (length anchor_px)
  + slot_of anchor_px (cast_int32 (bh a)).

Definition slice_row {T} (output : tensor T) (anchor_px : list Z) (field : Q)
    (C c : Z) (a : box) : list T :=
  take (Z.to_nat c)
    (drop (Z.to_nat (slice_offset anchor_px field C a * c)) (data output)).

(** Row [i] of [mapped] is [output[0, row, col, k, :]] for every candidate
    [i] whose [size] is exactly [anchor_px[k]]: channel [ch] of slot [k]
    is entry [k * c + ch] of the grid's last axis. *)
Definition gathers_slot {T} (size : box -> Q) (output : tensor T)
    (anchors : list box) (anchor_px : list Z) (field : Q) (c : Z)
    (mapped : tensor T) : Prop :=
  forall (i k : nat) (a : box) (s ch : Z),
    anchors !! i = Some a ->
    anchor_px !! k = Some s -> is_int32 s -> (size a == inject_Z s)%Q ->
    0 <= ch < c ->
    exists v,
      tget mapped [Z.of_nat i; ch] = Some v /\
      tget output [0; cell_of field (by_ a); cell_of field (bx a);
                   Z.of_nat k * c + ch] = Some v.

(** "Some candidate whose [size] matches no entry of [anchor_px] makes
    [map_outputs] raise", on inputs that give it no other reason to: a
    well-formed grid of [K * c] channels, at least one anchor size, every
    candidate's cell in bounds. *)
Definition raises_on_unmatched (size : box -> Q) : Prop :=
  exists (output : tensor Q) (anchors : list box) (anchor_px : list Z)
         (field : Q) (R C c : Z) (a : box),
    wf_tensor output /\
    shape output = [1; R; C; Z.of_nat (length anchor_px) * c] /\
    anchor_px <> [] /\
    (forall b, b ∈ anchors ->
       0 <= cell_of field (by_ b) < R /\ 0 <= cell_of field (bx b) < C) /\
    a ∈ anchors /\
    (forall s, s ∈ anchor_px -> ~ (size a == inject_Z s)%Q) /\
    raises (map_outputs output anchors anchor_px field).

(** The candidates [map_outputs] is given are anchors, and anchors are
    square: the width and the height are one anchor size. *)
Definition square (a : box) : Prop := (bw a == bh a)%Q.

(** A candidate whose grid position, as [map_outputs] computes it, lies
    inside an [R x C] grid. *)
Definition in_grid (field : Q) (R C : Z) (a : box) : Prop :=
  0 <= anchor_px_pos field (by_ a) < R /\ 0 <= anchor_px_pos field (bx a) < C.

(** The arguments of the seven [update_state] calls of a step (lines
    196-212): the two IoU maxima for metrics 0 and 1, the labels and the
    scores for the others. *)
Definition metric_args (rpn_ious align_ious : Q) (labels scores : tensor Q)
    (i : nat) : list (tensor Q) :=
  match i with
  | 0%nat => [scalar rpn_ious]
  | 1%nat => [scalar align_ious]
  | _ => [labels; scores]
  end.

(** "The step applies all three of its updates or none of them." *)
Definition all_or_none (st st' : train_state) : Prop :=
  (weights st' = weights st /\ iterations st' = iterations st) \/
  iterations st' = iterations st + 3.

(** The contract of [interpolate_bilinear] [roialign] relies on, for the
    feature grid at hand: [M] query points give [M] rows of [C] channels. *)
Definition interpolates (interp : tensor Q -> tensor Q -> result (tensor Q))
    (features : tensor Q) (C : Z) : Prop :=
  forall (q : tensor Q) (M : Z),
    shape q = [1; M; 2] -> Z.of_nat (length (data q)) = M * 2 ->
    exists o, interp features q = Ok o /\ shape o = [1; M; C] /\
              Z.of_nat (length (data o)) = M * C.

(** ** A small concrete instance

    One anchor size (32 px) on a 2 x 2 feature grid with one channel,
    a 64 x 64 image, [pool = tiles = 1]; three scalar variables, one per
    network. The collaborators are simple but of the right shape; the
    optimizer is plain gradient descent that, like Keras, accepts an
    empty list and refuses a list in which no variable has a gradient. *)
Module Demo.

Definition qsum (l : list Q) : Q := Qred (foldr Qplus 0%Q l).

Definition var (W : gmap string Q) (v : string) : Q := default 0%Q (W !! v).

Definition backbone : Network (tensor Q) := {|
  trainable_weights := ["backbone/w"];
  call W x :=
    Ok (Tensor [1; 2; 2; 1]
          ((fun q => Qred (var W "backbone/w" * q)) <$> [1; 2; 3; 4]%Q))
|}.

Definition rpnetwork : Network (list (tensor Q)) := {|
  trainable_weights := ["rpn/w"];
  call W features :=
    let w := var W "rpn/w" in
    Ok [Tensor [1; 2; 2; 2]
          (data features ≫= fun f => [Qred (w * f); Qred (w * f + 1)]);
        Tensor [1; 2; 2; 4]
          (data features ≫= fun f => [Qred (w + f); 0; 0; 0]%Q)]
|}.

Definition fastrcnn (trainable : list string) : Network (tensor Q) := {|
  trainable_weights := trainable;
  call W x :=
    n ← shape0 x;
    Ok (Tensor [n; 4]
          (replicate (4 * Z.to_nat n) (Qred (var W "fastrcnn/w" + qsum (data x)))))
|}.

Definition squared_error (y_true y_pred : tensor Q) : result Q :=
  Ok (qsum (zip_with (fun a b => (a - b) * (a - b))%Q (data y_true) (data y_pred))).

Definition sgd : Optimizer := {|
  validate gv :=
    match gv with
    | [] => None
    | _ =>
        if forallb (fun p => bool_decide (p.1 = None)) gv
        then Some "No gradients provided for any variable"
        else None
    end;
  update_step _ _ g x := Qred (x - g / 10)
|}.

Definition boxes_tensor (l : list box) : tensor Q :=
  Tensor [Z.of_nat (length l); 4] (l ≫= fun b => [bx b; by_ b; bw b; bh b]).

Definition ext : Externals := {|
  create_anchors px field h w :=
    s ← px; r ← seqZ 0 (h / 32); c ← seqZ 0 (w / 32);
    [Box (inject_Z (16 + 32 * c)) (inject_Z (16 + 32 * r))
         (inject_Z s) (inject_Z s)];
  filter_anchors gt candidates := Ok (take 1 candidates, drop 1 candidates);
  sample_anchors pos neg := Ok (pos, take 1 neg);
  parameterize bs ref := Ok (boxes_tensor bs);
  unparameterize reg ref := Ok ref;
  iou a b :=
    let t := Tensor [Z.of_nat (length a); Z.of_nat (length b)]
               (replicate (length a * length b) (1 # 2)) in
    Ok (t, t);
  fast_rcnn _ _ _ := fastrcnn ["fastrcnn/w"];
  field_size _ := 32%Q;
  interpolate_bilinear := bilinear_xy;
  preprocess_input x := x;
  softmax x := x;
  reduce_max t := foldr (fun a b => if Qle_bool a b then b else a) 0%Q (data t);
  tape_gradient target W v :=
    match target W, target (<[v := Qred (var W v + 1)]> W) with
    | Ok a, Ok b => Some (Qred (b - a))
    | _, _ => None
    end;
  Mean obs := qsum (obs ≫= fun args => args ≫= data);
  AUC _ obs := inject_Z (Z.of_nat (length obs));
  TruePositives obs := inject_Z (Z.of_nat (length obs));
  FalseNegatives obs := inject_Z (Z.of_nat (length obs));
  FalsePositives obs := inject_Z (Z.of_nat (length obs));
  default_name cls :=
    if decide (cls = "TruePositives") then "true_positives"
    else if decide (cls = "FalseNegatives") then "false_negatives"
    else "false_positives"
|}.

Definition self : FasterRCNN :=
  init ext rpnetwork backbone (64, 64) [32] 1 1 1 sgd
       [squared_error; squared_error].

(** Module globals: none, or the notebook's [model]. *)
Definition no_globals : gmap string FasterRCNN := ∅.
Definition with_model : gmap string FasterRCNN := {["model" := self]}.

Definition data : train_data :=
  Data2 (Tensor [64; 64; 3] []) [Box 0 0 32 32].

Definition st0 : train_state := {|
  weights := list_to_map [("backbone/w", 1%Q); ("rpn/w", 2%Q); ("fastrcnn/w", 3%Q)];
  iterations := 0;
  standard := init_standard ext
|}.

(** What [prepare] makes of [data]. *)
Definition inp : Inputs := {|
  norm := Tensor [1; 64; 64; 3] [];
  boxes := [Box 0 0 32 32];
  positive_anchors := [Box 16 16 32 32];
  negative_anchors := [Box 48 16 32 32]
|}.

(** A 2 x 3 output grid for two anchor sizes and two channels per slot,
    every entry its own marker. *)
Definition grid : tensor Z := Tensor [1; 2; 3; 4] (seqZ 0 24).
Definition sizes : list Z := [32; 64].

(** Candidates in cell (0, 1): 64 square; 32 square; 33 square. *)
Definition large : box := Box 48 16 64 64.
Definition square : box := Box 48 16 32 32.
Definition odd : box := Box 48 16 33 33.

End Demo.

(** * Properties *)

(** ** Casts, the size lookup, reshape and gather *)

Lemma bind_Ok {A B} (a : A) (f : A -> result B) : (Ok a ≫= f) = f a.
Proof. reflexivity. Qed.

Lemma Qtruncate_floor q : 0 <= Qfloor q -> Qtruncate q = Qfloor q.
Proof.
  destruct q as [n d]; unfold Qtruncate, Qfloor; simpl; intros H.
  apply Z.quot_div_nonneg; [|lia].
  destruct (Z_lt_le_dec n 0) as [Hn|Hn]; [|done].
  assert (n / Z.pos d < 0) by (apply Z.div_lt_upper_bound; lia). lia.
Qed.

Lemma cast_int32_floor q :
  0 <= Qfloor q <= int32_max -> cast_int32 q = Qfloor q.
Proof.
  intros [H0 H1]. unfold cast_int32. rewrite Qtruncate_floor by done.
  unfold int32_min, int32_max in *.
  destruct (Z.leb_spec (-2147483648) (Qfloor q)); [|lia].
  destruct (Z.leb_spec (Qfloor q) 2147483647); [done|lia].
Qed.

Lemma Qtruncate_eq_Z q z : (q == inject_Z z)%Q -> Qtruncate q = z.
Proof.
  unfold Qeq, Qtruncate; simpl. rewrite Z.mul_1_r. intros ->.
  apply Z.quot_mul. lia.
Qed.

Lemma cast_int32_eq_Z q z :
  is_int32 z -> (q == inject_Z z)%Q -> cast_int32 q = z.
Proof.
  intros [H0 H1] E. unfold cast_int32. rewrite (Qtruncate_eq_Z q z E).
  destruct (Z.leb_spec int32_min z); [|lia].
  destruct (Z.leb_spec z int32_max); [done|lia].
Qed.

(** The cast does not depend on how the rational is written. *)
Lemma Qtruncate_comp (q1 q2 : Q) : (q1 == q2)%Q -> Qtruncate q1 = Qtruncate q2.
Proof.
  intros E.
  assert (Hf : forall q, Qtruncate q
                         = if Qnum q <? 0 then - Qfloor (- q) else Qfloor q).
  { intros [n d]. unfold Qtruncate, Qfloor, Qopp; cbn [Qnum Qden].
    destruct (Z.ltb_spec n 0).
    - rewrite <- (Z.opp_involutive n) at 1.
      rewrite Z.quot_opp_l by lia. by rewrite Z.quot_div_nonneg by lia.
    - apply Z.quot_div_nonneg; lia. }
  rewrite !Hf.
  assert (Hs : (Qnum q1 <? 0) = (Qnum q2 <? 0)).
  { unfold Qeq in E.
    destruct (Z.ltb_spec (Qnum q1) 0), (Z.ltb_spec (Qnum q2) 0);
      try done; exfalso; nia. }
  rewrite Hs. destruct (Qnum q2 <? 0); by rewrite E.
Qed.

Lemma first_true_eqb_lookup (v : list Z) (s : Z) (k : nat) (i : Z) :
  v !! k = Some s ->
  (forall j, (j < k)%nat -> v !! j <> Some s) ->
  first_true ((fun a => s =? a) <$> v) i = Some (i + Z.of_nat k).
Proof.
  revert k i. induction v as [|a v IH]; intros k i Hk Hfirst; [done|].
  rewrite fmap_cons; cbn [first_true]. destruct k as [|k].
  - injection Hk as ->. rewrite Z.eqb_refl. f_equal. lia.
  - rewrite lookup_cons in Hk. destruct (Z.eqb_spec s a) as [->|Hne].
    + exfalso. apply (Hfirst 0%nat); [lia|done].
    + rewrite (IH k (i + 1)); [f_equal; lia|done|].
      intros j Hj. apply (Hfirst (S j)). lia.
Qed.

Lemma first_true_eqb_none (v : list Z) (s : Z) (i : Z) :
  s ∉ v -> first_true ((fun a => s =? a) <$> v) i = None.
Proof.
  revert i. induction v as [|a v IH]; intros i Hn; [done|].
  rewrite fmap_cons; cbn [first_true].
  apply not_elem_of_cons in Hn as [Hne Hn].
  destruct (Z.eqb_spec s a); [done|]. by apply IH.
Qed.

Lemma NoDup_lookup_first (v : list Z) (s : Z) (k : nat) :
  NoDup v -> v !! k = Some s -> forall j, (j < k)%nat -> v !! j <> Some s.
Proof.
  intros Hnd Hk j Hj Hjs.
  assert (j = k) by (eapply NoDup_lookup; eauto). lia.
Qed.

Lemma map_fn_total {A B} (f : A -> result B) (g : A -> B) (xs : list A) :
  (forall x, f x = Ok (g x)) -> map_fn f xs = Ok (g <$> xs).
Proof.
  intros Hf. induction xs as [|x xs IH]; [done|].
  cbn [map_fn]. by rewrite Hf, bind_Ok, IH, bind_Ok.
Qed.

Lemma anchor_index_ok (anchor_px : list Z) (anchors : list box) :
  anchor_px <> [] ->
  anchor_index anchor_px anchors
  = Ok ((fun a => slot_of anchor_px (cast_int32 (bh a))) <$> anchors).
Proof.
  intros Hne. unfold anchor_index.
  rewrite (map_fn_total _ (slot_of anchor_px)).
  - by rewrite <- !list_fmap_compose.
  - intros x. destruct anchor_px; [done|]. done.
Qed.

Lemma stack4_fmap {A} (f g h : A -> Z) (l : list A) :
  stack4 (replicate (length l) 0) (f <$> l) (g <$> l) (h <$> l)
  = (fun a => [0; f a; g a; h a]) <$> l.
Proof. induction l as [|a l IH]; [done|]. cbn. by rewrite IH. Qed.

Lemma gather_rows_fmap {T A} (p : tensor T) (f : A -> list Z)
    (row : A -> list T) (l : list A) :
  (forall a, a ∈ l -> gather_slice p (f a) = Ok (row a)) ->
  gather_rows p (f <$> l) = Ok (mjoin (row <$> l)).
Proof.
  induction l as [|a l IH]; intros H; [done|].
  rewrite fmap_cons. cbn [gather_rows].
  rewrite (H a), bind_Ok by apply list_elem_of_here.
  rewrite IH; [done|]. intros b Hb. apply H. by apply list_elem_of_further.
Qed.

Lemma slot_of_bound (anchor_px : list Z) (x : Z) :
  anchor_px <> [] -> 0 <= slot_of anchor_px x < Z.of_nat (length anchor_px).
Proof.
  intros Hne. unfold slot_of.
  assert (G : forall v i k, first_true ((fun a => x =? a) <$> v) i = Some k ->
            i <= k < i + Z.of_nat (length v)).
  { induction v as [|a v IH]; intros i k; [done|].
    rewrite fmap_cons; cbn [first_true length].
    destruct (x =? a); [intros [= <-]; lia|].
    intros Hk. apply IH in Hk. lia. }
  destruct (first_true _ 0) as [k|] eqn:E; simpl.
  - apply G in E. lia.
  - destruct anchor_px; [done|]. simpl. lia.
Qed.

Lemma infer_dim_nonneg (n : Z) (s : list Z) :
  Forall (fun d => 0 <= d) s -> infer_dim n s = Some s.
Proof.
  intros H. unfold infer_dim.
  assert (E : List.filter (Z.eqb (-1)) s = []).
  { induction H as [|d s Hd _ IH]; [done|].
    cbn [List.filter]. destruct (Z.eqb_spec (-1) d); [lia|done]. }
  by rewrite E.
Qed.

Lemma tf_reshape_ok {T} (t : tensor T) (s : list Z) :
  Forall (fun d => 0 <= d) s ->
  numel s = Z.of_nat (length (data t)) ->
  tf_reshape t s = Ok (Tensor s (data t)).
Proof.
  intros Hs Hn. unfold tf_reshape. rewrite infer_dim_nonneg by done.
  assert (forallb (fun d => 0 <=? d) s = true) as ->.
  { apply forallb_forall. intros d Hd. apply Z.leb_le.
    rewrite Forall_forall in Hs. apply Hs. by apply list_elem_of_In. }
  rewrite Hn, Z.eqb_refl. done.
Qed.

(** Every coordinate being in range, each bounds test of [ravel] passes. *)
Ltac ravel_in_bounds :=
  cbn [ravel];
  repeat match goal with
  | |- context [(0 <=? ?x) && (?x <? ?d)] =>
      replace ((0 <=? x) && (x <? d)) with true
        by (symmetry; apply andb_true_iff; split;
            [apply Z.leb_le|apply Z.ltb_lt]; lia)
  end;
  cbv iota; f_equal; lia.

Lemma ravel4 (d0 d1 d2 d3 : Z) (rest : list Z) (i0 i1 i2 i3 : Z) :
  0 <= i0 < d0 -> 0 <= i1 < d1 -> 0 <= i2 < d2 -> 0 <= i3 < d3 ->
  ravel (d0 :: d1 :: d2 :: d3 :: rest) [i0; i1; i2; i3] 0
  = Some (((i0 * d1 + i1) * d2 + i2) * d3 + i3).
Proof. intros H0 H1 H2 H3. ravel_in_bounds. Qed.

Lemma ravel2 (d0 d1 : Z) (i0 i1 : Z) :
  0 <= i0 < d0 -> 0 <= i1 < d1 ->
  ravel [d0; d1] [i0; i1] 0 = Some (i0 * d1 + i1).
Proof. intros H0 H1. ravel_in_bounds. Qed.

(** ** [map_outputs] on a well-formed grid with every cell in bounds *)

Section MapOutputs.
Context {T : Type}.
Variables (output : tensor T) (anchors : list box) (anchor_px : list Z).
Variables (field : Q) (R C c : Z).
Local Abbreviation K := (Z.of_nat (length anchor_px)).

Hypothesis Hwf : wf_tensor output.
Hypothesis Hshape : shape output = [1; R; C; K * c].
Hypothesis HK : anchor_px <> [].
Hypothesis Hcells : forall a, a ∈ anchors ->
  0 <= cell_of field (by_ a) < R /\ 0 <= cell_of field (bx a) < C.

Local Abbreviation offset := (slice_offset anchor_px field C).
Local Abbreviation row := (slice_row output anchor_px field C c).

Lemma anchor_px_length_pos : 0 < K.
Proof. destruct anchor_px; [done|]. simpl. lia. Qed.

Lemma grid_dims_bounds :
  0 <= R <= int32_max /\ 0 <= C <= int32_max /\ 0 <= c /\
  Z.of_nat (length (data output)) = R * C * K * c.
Proof.
  destruct Hwf as [Hd Hl]. rewrite Hshape in Hd, Hl.
  repeat (apply Forall_cons in Hd as [? Hd]).
  pose proof anchor_px_length_pos. cbn in Hl. repeat split; try lia; try nia.
Qed.

Lemma slice_offset_bounds a :
  a ∈ anchors -> 0 <= offset a /\ (offset a + 1) * c <= R * C * K * c.
Proof.
  intros Ha. destruct (Hcells a Ha) as [Hr Hc].
  pose proof (slot_of_bound anchor_px (cast_int32 (bh a)) HK) as Hs.
  destruct grid_dims_bounds as (_ & _ & Hc0 & _).
  pose proof anchor_px_length_pos as HK0. unfold slice_offset.
  set (r := cell_of field (by_ a)) in *. set (q := cell_of field (bx a)) in *.
  set (s := slot_of anchor_px (cast_int32 (bh a))) in *.
  assert (0 <= r * C) by (apply Z.mul_nonneg_nonneg; lia).
  assert (r * C + q + 1 <= R * C) by nia.
  assert (0 <= (r * C + q) * K) by (apply Z.mul_nonneg_nonneg; lia).
  assert ((r * C + q + 1) * K <= R * C * K)
    by (apply Z.mul_le_mono_nonneg_r; lia).
  split; [lia|]. apply Z.mul_le_mono_nonneg_r; [done|]. lia.
Qed.

Lemma slice_row_length a : a ∈ anchors -> length (row a) = Z.to_nat c.
Proof.
  intros Ha. destruct (slice_offset_bounds a Ha) as [H0 H1].
  destruct grid_dims_bounds as (_ & _ & Hc0 & Hl).
  unfold slice_row. rewrite length_take, length_drop.
  assert (Z.to_nat (offset a * c) + Z.to_nat c <= length (data output))%nat.
  { apply Nat2Z.inj_le. rewrite Nat2Z.inj_add, !Z2Nat.id by nia. lia. }
  lia.
Qed.

Lemma map_outputs_eval :
  map_outputs output anchors anchor_px field
  = Ok (Tensor [Z.of_nat (length anchors); c] (mjoin (row <$> anchors))).
Proof.
  destruct grid_dims_bounds as (HR & HC & Hc0 & Hl). pose proof anchor_px_length_pos as HK0.
  unfold map_outputs. rewrite anchor_index_ok, bind_Ok by done.
  rewrite Hshape. unfold split_shape. cbn [last removelast app].
  destruct (decide (K = 0)) as [?|_]; [lia|].
  replace (K * c / K) with c by (rewrite Z.mul_comm, Z.div_mul; lia).
  rewrite bind_Ok, tf_reshape_ok; cycle 1.
  { repeat constructor; lia. }
  { cbn. lia. }
  rewrite bind_Ok. unfold tf_gather_nd. cbn [shape data].
  rewrite <- !list_fmap_compose, length_fmap.
  rewrite (stack4_fmap (anchor_px_pos field ∘ by_) (anchor_px_pos field ∘ bx)).
  rewrite (gather_rows_fmap _ _ row).
  - rewrite bind_Ok. cbn [drop]. by rewrite length_fmap.
  - intros a Ha. destruct (Hcells a Ha) as [Hr Hcc].
    pose proof (slot_of_bound anchor_px (cast_int32 (bh a)) HK) as Hs.
    unfold gather_slice. cbn [shape data compose].
    unfold anchor_px_pos.
    rewrite !cast_int32_floor by (unfold cell_of in *; lia).
    rewrite ravel4 by (unfold cell_of in *; lia).
    cbn [length drop numel foldr]. rewrite Z.mul_1_r.
    unfold slice_row, slice_offset, cell_of. do 3 f_equal; lia.
Qed.

Lemma mapped_entry (i : nat) (a : box) (ch : Z) :
  anchors !! i = Some a -> 0 <= ch < c ->
  tget (Tensor [Z.of_nat (length anchors); c] (mjoin (row <$> anchors)))
       [Z.of_nat i; ch]
  = data output !! Z.to_nat (offset a * c + ch).
Proof.
  intros Hi Hch. assert (Ha : a ∈ anchors) by (eapply list_elem_of_lookup_2; eauto).
  destruct (slice_offset_bounds a Ha) as [Ho _].
  pose proof (lookup_lt_Some _ _ _ Hi) as Hlt.
  unfold tget. cbn [shape data length]. rewrite decide_True by done.
  rewrite ravel2 by lia. cbn [mbind option_bind].
  replace (Z.to_nat (Z.of_nat i * c + ch))
    with (i * Z.to_nat c + Z.to_nat ch)%nat by nia.
  assert (Hrows : Forall (fun l => length l = Z.to_nat c) (row <$> anchors)).
  { apply Forall_fmap, Forall_forall. intros b Hb. by apply slice_row_length. }
  assert (Hch' : (Z.to_nat ch < Z.to_nat c)%nat) by lia.
  destruct (mjoin (row <$> anchors) !! (i * Z.to_nat c + Z.to_nat ch)%nat)
    as [v|] eqn:E.
  - apply (join_lookup_Some_same_length' _ _ _ _ _ Hrows Hch') in E
      as (l & Hl & Hv).
    rewrite list_lookup_fmap, Hi in Hl. injection Hl as <-.
    unfold slice_row in Hv.
    rewrite lookup_take_lt, lookup_drop in Hv by done.
    rewrite <- Hv. f_equal. nia.
  - exfalso. assert (Hsome : is_Some (row a !! Z.to_nat ch)).
    { apply lookup_lt_is_Some. by rewrite slice_row_length. }
    destruct Hsome as [v Hv].
    assert (mjoin (row <$> anchors) !! (i * Z.to_nat c + Z.to_nat ch)%nat
            = Some v); [|congruence].
    apply (join_lookup_Some_same_length' _ _ _ _ _ Hrows Hch').
    exists (row a). by rewrite list_lookup_fmap, Hi.
Qed.

Lemma output_entry (r q k ch : Z) :
  0 <= r < R -> 0 <= q < C -> 0 <= k < K -> 0 <= ch < c ->
  tget output [0; r; q; k * c + ch]
  = data output !! Z.to_nat (((r * C + q) * K + k) * c + ch).
Proof.
  intros Hr Hq Hk Hch. unfold tget. rewrite Hshape.
  cbn [length]. rewrite decide_True by done.
  rewrite ravel4 by nia. cbn [mbind option_bind]. f_equal. f_equal. ring.
Qed.

Lemma output_entry_is_Some (r q k ch : Z) :
  0 <= r < R -> 0 <= q < C -> 0 <= k < K -> 0 <= ch < c ->
  is_Some (tget output [0; r; q; k * c + ch]).
Proof.
  intros Hr Hq Hk Hch. rewrite output_entry by done.
  apply lookup_lt_is_Some. destruct grid_dims_bounds as (_ & _ & _ & Hl).
  assert (0 <= r * C) by (apply Z.mul_nonneg_nonneg; lia).
  assert (r * C + q + 1 <= R * C) by nia.
  assert (0 <= (r * C + q) * K) by (apply Z.mul_nonneg_nonneg; lia).
  assert ((r * C + q + 1) * K <= R * C * K)
    by (apply Z.mul_le_mono_nonneg_r; lia).
  assert (0 <= ((r * C + q) * K + k) * c) by (apply Z.mul_nonneg_nonneg; lia).
  assert (((r * C + q) * K + k + 1) * c <= R * C * K * c)
    by (apply Z.mul_le_mono_nonneg_r; lia).
  lia.
Qed.

Lemma slot_of_match (a : box) (k : nat) (s : Z) :
  NoDup anchor_px -> anchor_px !! k = Some s -> is_int32 s ->
  (bh a == inject_Z s)%Q ->
  slot_of anchor_px (cast_int32 (bh a)) = Z.of_nat k.
Proof.
  intros Hnd Hk Hs Hw. rewrite (cast_int32_eq_Z _ s) by done.
  unfold slot_of. rewrite (first_true_eqb_lookup _ _ k);
    [done|done|]. by apply NoDup_lookup_first.
Qed.

Lemma gathers_slot_by_height :
  NoDup anchor_px -> (0 < field)%Q ->
  exists mapped,
    map_outputs output anchors anchor_px field = Ok mapped /\
    shape mapped = [Z.of_nat (length anchors); c] /\
    gathers_slot bh output anchors anchor_px field c mapped.
Proof.
  intros Hnd _. eexists. split; [apply map_outputs_eval|]. split; [done|].
  intros i k a s ch Hi Hk Hs Hw Hch.
  assert (Ha : a ∈ anchors) by (eapply list_elem_of_lookup_2; eauto).
  destruct (Hcells a Ha) as [Hr Hq].
  assert (HkK : 0 <= Z.of_nat k < K).
  { apply lookup_lt_Some in Hk. lia. }
  destruct (output_entry_is_Some _ _ _ ch Hr Hq HkK Hch) as [v Hv].
  exists v. split; [|done].
  rewrite (mapped_entry i a ch Hi Hch).
  rewrite output_entry in Hv by done. rewrite <- Hv.
  unfold slice_offset. by rewrite (slot_of_match a k s).
Qed.
End MapOutputs.

(** A candidate whose size matches nothing is treated exactly like one of
    the first anchor size at the same position, on every input. *)
Lemma unmatched_size_acts_as_first_size {T} (output : tensor T)
    (anchor_px : list Z) (field : Q) (before after : list box)
    (a a' : box) (s0 : Z) :
  head anchor_px = Some s0 -> is_int32 s0 ->
  cast_int32 (bh a) ∉ anchor_px ->
  (bh a' == inject_Z s0)%Q -> bx a' = bx a -> by_ a' = by_ a ->
  map_outputs output (before ++ a :: after) anchor_px field
  = map_outputs output (before ++ a' :: after) anchor_px field.
Proof.
  intros Hhd Hs0 Hno Hs Hx Hy.
  assert (Hne : anchor_px <> []) by (by destruct anchor_px).
  assert (Hslot : slot_of anchor_px (cast_int32 (bh a))
                  = slot_of anchor_px (cast_int32 (bh a'))).
  { rewrite (cast_int32_eq_Z (bh a') s0) by done. unfold slot_of.
    rewrite first_true_eqb_none by done.
    destruct anchor_px as [|s rest]; [done|]. injection Hhd as ->.
    rewrite fmap_cons. cbn [first_true]. by rewrite Z.eqb_refl. }
  unfold map_outputs. rewrite !anchor_index_ok by done.
  rewrite !fmap_app, !fmap_cons, !length_app. cbn [length].
  by rewrite Hslot, Hx, Hy.
Qed.

(** C5, as the code has it: no error is raised for a candidate whose
    size matches no anchor size. When the truncated size field (column 3)
    of candidate [i] is absent from [anchor_px], the lookup yields slot 0,
    and with every cell in bounds [map_outputs] returns, at row [i], the
    slice [output[0, row, col, 0, :]]. *)
Theorem unmatched_size_reads_slot_0 {T} (output : tensor T)
    (anchors : list box) (anchor_px : list Z) (field : Q) (R C c : Z) :
  wf_tensor output ->
  shape output = [1; R; C; Z.of_nat (length anchor_px) * c] ->
  anchor_px <> [] ->
  (0 < field)%Q ->
  (forall a, a ∈ anchors ->
     0 <= cell_of field (by_ a) < R /\ 0 <= cell_of field (bx a) < C) ->
  exists mapped,
    map_outputs output anchors anchor_px field = Ok mapped /\
    forall (i : nat) (a : box) (ch : Z),
      anchors !! i = Some a ->
      cast_int32 (bh a) ∉ anchor_px ->
      0 <= ch < c ->
      exists v,
        tget mapped [Z.of_nat i; ch] = Some v /\
        tget output [0; cell_of field (by_ a); cell_of field (bx a);
                     0 * c + ch] = Some v.
Proof.
  intros Hwf Hshape HK _ Hcells. eexists.
  split; [by eapply map_outputs_eval|].
  intros i a ch Hi Hno Hch.
  assert (Ha : a ∈ anchors) by (eapply list_elem_of_lookup_2; eauto).
  destruct (Hcells a Ha) as [Hr Hq].
  assert (H0 : 0 <= 0 < Z.of_nat (length anchor_px)).
  { destruct anchor_px; [done|]. cbn [length]. lia. }
  destruct (output_entry_is_Some output anchor_px R C c Hwf Hshape HK
              _ _ _ ch Hr Hq H0 Hch) as [v Hv].
  exists v. split; [|done].
  rewrite (mapped_entry output anchors anchor_px field R C c
             Hwf Hshape HK Hcells i a ch Hi Hch).
  rewrite (output_entry output anchor_px R C c) in Hv by done.
  rewrite <- Hv. unfold slice_offset, slot_of.
  by rewrite first_true_eqb_none.
Qed.

Lemma unmatched_size_reads_slot_0_witness :
  (0 < 32)%Q /\
  exists v, tget Demo.grid [0; 0; 1; 0 * 2 + 1] = Some v /\
    exists mapped,
      map_outputs Demo.grid [Demo.odd] Demo.sizes 32 = Ok mapped /\
      tget mapped [0; 1] = Some v.
Proof.
  split; [reflexivity|].
  destruct (unmatched_size_reads_slot_0 Demo.grid [Demo.odd] Demo.sizes 32
              2 3 2) as (mapped & Hm & Hrow).
  - split; [repeat constructor; unfold int32_max; lia|reflexivity].
  - reflexivity.
  - discriminate.
  - reflexivity.
  - intros a Ha. apply list_elem_of_singleton in Ha as ->.
    vm_compute. repeat split; discriminate.
  - destruct (Hrow 0%nat Demo.odd 1) as (v & Hv1 & Hv2).
    + reflexivity.
    + vm_compute. intros Hin.
      repeat (apply elem_of_cons in Hin as [Hin|Hin]; [discriminate Hin|]).
      by apply elem_of_nil in Hin.
    + lia.
    + exists v. split; [exact Hv2|]. exists mapped. split; [exact Hm|exact Hv1].
Defined.

(** C5 as stated fails: on inputs that give [map_outputs] no other
    reason to raise, an unmatched size never makes it raise, whether the
    size is read from the width or from the height; and on any input,
    what raises with an unmatched candidate raises as well with a
    candidate of the first anchor size in its place. The 33-pixel
    candidate of the instance is silently given the data of slot 0. *)
Lemma unmatched_size_never_raises :
  ~ raises_on_unmatched bw /\ ~ raises_on_unmatched bh /\
  (forall (output : tensor Q) anchor_px field before after a a' s0,
     head anchor_px = Some s0 -> is_int32 s0 ->
     cast_int32 (bh a) ∉ anchor_px ->
     (bh a' == inject_Z s0)%Q -> bx a' = bx a -> by_ a' = by_ a ->
     raises (map_outputs output (before ++ a :: after) anchor_px field) ->
     raises (map_outputs output (before ++ a' :: after) anchor_px field)) /\
  (forall s, s ∈ Demo.sizes -> ~ (bw Demo.odd == inject_Z s)%Q) /\
  map_outputs Demo.grid [Demo.odd] Demo.sizes 32 = Ok (Tensor [1; 2] [4; 5]) /\
  tget Demo.grid [0; 0; 1; 0] = Some 4 /\ tget Demo.grid [0; 0; 1; 1] = Some 5.
Proof.
  assert (G : forall size, ~ raises_on_unmatched size).
  { intros size (output & anchors & anchor_px & field & R & C & c & a
                 & Hwf & Hs & HK & Hcells & _ & _ & Hr).
    by rewrite (map_outputs_eval output anchors anchor_px field R C c) in Hr. }
  split; [apply G|]. split; [apply G|]. split.
  { intros output anchor_px field before after a a' s0 H1 H2 H3 H4 H5 H6.
    by rewrite (unmatched_size_acts_as_first_size output anchor_px field
                  before after a a' s0). }
  split; [|by vm_compute].
  intros s Hs.
  repeat (apply elem_of_cons in Hs as [->|Hs]; [by vm_compute|]).
  by apply elem_of_nil in Hs.
Qed.

(** C10: the slot lookup compares a size field truncated to an integer
    with the entries of [anchor_px]; the field it reads is column 3, the
    height, which for a candidate of [map_outputs], a square anchor, is
    the width. Square candidates whose widths have the same integer part
    get the same slot, and so the same mapped row when they sit at the
    same position; a width whose integer part is [anchor_px[k]] selects
    slot [k], whatever its fraction. *)
Theorem size_lookup_ignores_fraction (anchor_px : list Z) (a1 a2 : box) :
  square a1 -> square a2 ->
  Qtruncate (bw a1) = Qtruncate (bw a2) ->
  anchor_index anchor_px [a1] = anchor_index anchor_px [a2] /\
  (forall (T : Type) (output : tensor T) (field : Q),
     bx a1 = bx a2 -> by_ a1 = by_ a2 ->
     map_outputs output [a1] anchor_px field
     = map_outputs output [a2] anchor_px field) /\
  (forall (k : nat) (s : Z),
     NoDup anchor_px -> anchor_px !! k = Some s -> is_int32 s ->
     Qtruncate (bw a1) = s ->
     anchor_index anchor_px [a1] = Ok [Z.of_nat k]).
Proof.
  intros Hs1 Hs2 Hw.
  assert (Ht : Qtruncate (bh a1) = Qtruncate (bh a2)).
  { rewrite <- (Qtruncate_comp _ _ Hs1), <- (Qtruncate_comp _ _ Hs2). exact Hw. }
  assert (Hc : cast_int32 (bh a1) = cast_int32 (bh a2))
    by (unfold cast_int32; by rewrite Ht).
  assert (Hi : anchor_index anchor_px [a1] = anchor_index anchor_px [a2]).
  { unfold anchor_index. cbn [fmap list_fmap]. by rewrite Hc. }
  split; [done|]. split.
  - intros T output field Hx Hy. unfold map_outputs.
    rewrite Hi. cbn [fmap list_fmap]. by rewrite Hx, Hy.
  - intros k s Hnd Hk [Hlo Hhi] Hs.
    assert (anchor_px <> []) by (by destruct anchor_px).
    rewrite anchor_index_ok by done. cbn [fmap list_fmap].
    unfold cast_int32. rewrite <- (Qtruncate_comp _ _ Hs1), Hs.
    replace ((int32_min <=? s) && (s <=? int32_max)) with true
      by (symmetry; apply andb_true_iff; split; apply Z.leb_le; lia).
    unfold slot_of. rewrite (first_true_eqb_lookup _ _ k); [done|done|].
    by apply NoDup_lookup_first.
Qed.

Lemma size_lookup_ignores_fraction_witness :
  square (Box 48 16 32 32) /\ square (Box 48 16 (329 # 10) (329 # 10)) /\
  Qtruncate 32 = Qtruncate (329 # 10) /\
  anchor_index Demo.sizes [Box 48 16 32 32]
  = anchor_index Demo.sizes [Box 48 16 (329 # 10) (329 # 10)] /\
  anchor_index Demo.sizes [Box 48 16 (329 # 10) (329 # 10)] = Ok [0].
Proof.
  assert (S1 : square (Box 48 16 32 32)) by reflexivity.
  assert (S2 : square (Box 48 16 (329 # 10) (329 # 10))) by reflexivity.
  destruct (size_lookup_ignores_fraction Demo.sizes
              (Box 48 16 32 32) (Box 48 16 (329 # 10) (329 # 10)) S1 S2 eq_refl)
    as (H1 & _ & _).
  split; [exact S1|]. split; [exact S2|]. split; [reflexivity|].
  split; [exact H1|]. rewrite <- H1. reflexivity.
Defined.

(** C1: the candidates are anchors, and anchors are square, so the size
    field the lookup reads (column 3, the height) is the width. With a
    well-formed [1 x R x C x (K * c)] grid, distinct anchor sizes and
    every candidate's cell in bounds, [map_outputs] returns an [N x c]
    table whose row [i] is [output[0, row, col, k, :]] for every candidate
    [i] whose width is exactly [anchor_px[k]], rows in the order of the
    candidates. *)
Theorem map_outputs_gathers_slot {T} (output : tensor T) (anchors : list box)
    (anchor_px : list Z) (field : Q) (R C c : Z) :
  wf_tensor output ->
  shape output = [1; R; C; Z.of_nat (length anchor_px) * c] ->
  anchor_px <> [] -> NoDup anchor_px ->
  (0 < field)%Q ->
  (forall a, a ∈ anchors -> square a) ->
  (forall a, a ∈ anchors ->
     0 <= cell_of field (by_ a) < R /\ 0 <= cell_of field (bx a) < C) ->
  exists mapped,
    map_outputs output anchors anchor_px field = Ok mapped /\
    shape mapped = [Z.of_nat (length anchors); c] /\
    gathers_slot bw output anchors anchor_px field c mapped.
Proof.
  intros Hwf Hshape HK Hnd Hf Hsq Hcells.
  destruct (gathers_slot_by_height output anchors anchor_px field R C c
              Hwf Hshape HK Hcells Hnd Hf) as (mapped & Hm & Hs & Hg).
  exists mapped. split; [exact Hm|]. split; [exact Hs|].
  intros i k a s ch Hi Hk Hs32 Hw Hch.
  apply (Hg i k a s ch); [done..| |done].
  assert (Ha : a ∈ anchors) by (eapply list_elem_of_lookup_2; eauto).
  exact (Qeq_trans _ _ _ (Qeq_sym _ _ (Hsq a Ha)) Hw).
Qed.

Lemma map_outputs_gathers_slot_witness :
  exists mapped,
    map_outputs Demo.grid [Demo.square; Box 16 48 64 64] Demo.sizes 32
    = Ok mapped /\
    tget mapped [0; 1] = tget Demo.grid [0; 0; 1; 0 * 2 + 1] /\
    tget mapped [1; 1] = tget Demo.grid [0; 1; 0; 1 * 2 + 1].
Proof.
  destruct (map_outputs_gathers_slot Demo.grid [Demo.square; Box 16 48 64 64]
              Demo.sizes 32 2 3 2) as (mapped & Hm & _ & Hrow).
  - split; [repeat constructor; unfold int32_max; lia|reflexivity].
  - reflexivity.
  - discriminate.
  - repeat constructor; [|apply not_elem_of_nil..].
    intros Hin. apply list_elem_of_singleton in Hin. discriminate Hin.
  - reflexivity.
  - intros a Ha.
    repeat (apply elem_of_cons in Ha as [->|Ha]; [reflexivity|]).
    by apply elem_of_nil in Ha.
  - intros a Ha.
    repeat (apply elem_of_cons in Ha as [->|Ha];
            [vm_compute; repeat split; discriminate|]).
    by apply elem_of_nil in Ha.
  - exists mapped. split; [exact Hm|]. split.
    + destruct (Hrow 0%nat 0%nat Demo.square 32 1) as (v & Hv1 & Hv2);
        [reflexivity|reflexivity|by vm_compute|reflexivity|lia|].
      exact (eq_trans Hv1 (eq_sym Hv2)).
    + destruct (Hrow 1%nat 1%nat (Box 16 48 64 64) 64 1) as (v & Hv1 & Hv2);
        [reflexivity|reflexivity|by vm_compute|reflexivity|lia|].
      exact (eq_trans Hv1 (eq_sym Hv2)).
Defined.

(** ** [_roialign_coords] and [roialign] *)

Lemma rows2_lookup (ps : list (Q * Q)) (i : nat) (p : Q * Q) :
  ps !! i = Some p ->
  rows2 ps !! (2 * i)%nat = Some p.1 /\ rows2 ps !! (2 * i + 1)%nat = Some p.2.
Proof.
  revert i. induction ps as [|q ps IH]; intros i Hi; [done|].
  destruct i as [|i].
  - injection Hi as ->. done.
  - apply IH in Hi as [H1 H2]. unfold rows2 in *.
    replace (2 * S i)%nat with (S (S (2 * i))) by lia.
    replace (S (S (2 * i)) + 1)%nat with (S (S (2 * i + 1))) by lia.
    done.
Qed.

Lemma rows2_length (ps : list (Q * Q)) : length (rows2 ps) = (2 * length ps)%nat.
Proof.
  induction ps as [|q ps IH]; [done|]. unfold rows2 in *. cbn in *. lia.
Qed.

Lemma grid_lookup {A B C} (f : A -> B -> C) (xs : list A) (ys : list B)
    (j k : nat) (x : A) (y : B) :
  xs !! j = Some x -> ys !! k = Some y ->
  mjoin ((fun yr => (fun xr => f xr yr) <$> xs) <$> ys)
    !! (k * length xs + j)%nat = Some (f x y).
Proof.
  intros Hx Hy.
  apply (join_lookup_Some_same_length' (length xs)).
  - apply Forall_fmap, Forall_forall. intros b _. cbn. apply length_fmap.
  - by eapply lookup_lt_Some.
  - exists ((fun xr => f xr y) <$> xs).
    by rewrite !list_lookup_fmap, Hx, Hy.
Qed.

Lemma grid_length {A B C} (f : A -> B -> C) (xs : list A) (ys : list B) :
  length (mjoin ((fun yr => (fun xr => f xr yr) <$> xs) <$> ys))
  = (length ys * length xs)%nat.
Proof.
  induction ys as [|y ys IH]; [done|].
  csimpl. rewrite length_app, length_fmap, IH. lia.
Qed.

Lemma tf_range_lookup (n j : Z) :
  0 <= j < n -> tf_range n !! Z.to_nat j = Some (inject_Z j).
Proof.
  intros H. unfold tf_range. rewrite list_lookup_fmap, lookup_seqZ_lt by lia.
  cbn. do 2 f_equal. lia.
Qed.

Lemma tf_range_length (n : Z) : length (tf_range n) = Z.to_nat n.
Proof. unfold tf_range. by rewrite length_fmap, length_seqZ. Qed.

Lemma roialign_coords_shape (b : box) (n : Z) :
  0 <= n -> shape (_roialign_coords b n) = [n * n; 2].
Proof.
  intros Hn. unfold _roialign_coords. cbn [shape].
  rewrite !length_fmap, tf_range_length. by rewrite !Z2Nat.id by lia.
Qed.

Lemma roialign_coords_length (b : box) (n : Z) :
  length (data (_roialign_coords b n)) = (2 * (Z.to_nat n * Z.to_nat n))%nat.
Proof.
  unfold _roialign_coords. cbn [data].
  rewrite rows2_length, length_fmap, grid_length.
  by rewrite !length_fmap, tf_range_length.
Qed.

Lemma roialign_coords_point_at (b : box) (pool tiles j k : Z) :
  0 <= j < pool * tiles -> 0 <= k < pool * tiles ->
  exists x y : Q,
    tget (_roialign_coords b (tiles * pool)) [k * (pool * tiles) + j; 0] = Some x /\
    tget (_roialign_coords b (tiles * pool)) [k * (pool * tiles) + j; 1] = Some y /\
    (x == bx b + bw b * (inject_Z j + (1 # 2)) / inject_Z (pool * tiles))%Q /\
    (y == by_ b + bh b * (inject_Z k + (1 # 2)) / inject_Z (pool * tiles))%Q.
Proof.
  rewrite (Z.mul_comm tiles pool). set (n := pool * tiles). intros Hj Hk.
  assert (Hn : 0 < n) by lia.
  set (size := inject_Z (Z.of_nat (length (tf_range n)))).
  set (xo := fun i => (bw b / size / 2 + bw b / size * i)%Q).
  set (yo := fun i => (bh b / size / 2 + bh b / size * i)%Q).
  set (pt := add2 (add2 (xo (inject_Z j), 0%Q) (0%Q, yo (inject_Z k)))
                  (bx b, by_ b)).
  assert (Hpt : ((fun p => add2 p (bx b, by_ b)) <$>
                 mjoin ((fun yr => (fun xr => add2 xr yr) <$>
                           ((fun x => (x, 0%Q)) <$> (xo <$> tf_range n)))
                        <$> ((fun y => (0%Q, y)) <$> (yo <$> tf_range n))))
                !! (Z.to_nat k * Z.to_nat n + Z.to_nat j)%nat = Some pt).
  { rewrite list_lookup_fmap.
    pose proof (grid_lookup add2
      ((fun x => (x, 0%Q)) <$> (xo <$> tf_range n))
      ((fun y => (0%Q, y)) <$> (yo <$> tf_range n))
      (Z.to_nat j) (Z.to_nat k) (xo (inject_Z j), 0%Q) (0%Q, yo (inject_Z k))) as G.
    rewrite !length_fmap, tf_range_length in G. rewrite G; [done| |].
    - by rewrite !list_lookup_fmap, tf_range_lookup.
    - by rewrite !list_lookup_fmap, tf_range_lookup. }
  apply rows2_lookup in Hpt as [Hx Hy].
  assert (Hsize : (size == inject_Z n)%Q).
  { subst size. rewrite tf_range_length, Z2Nat.id by lia. reflexivity. }
  assert (Hnz : ~ (inject_Z n == 0)%Q).
  { intros E. unfold Qeq in E; cbn in E. lia. }
  exists pt.1, pt.2. repeat split.
  - unfold tget. rewrite roialign_coords_shape by lia. cbn [length].
    rewrite decide_True by done. rewrite ravel2 by nia.
    cbn [mbind option_bind]. rewrite <- Hx. unfold _roialign_coords; cbn [data].
    f_equal. nia.
  - unfold tget. rewrite roialign_coords_shape by lia. cbn [length].
    rewrite decide_True by done. rewrite ravel2 by nia.
    cbn [mbind option_bind]. rewrite <- Hy. unfold _roialign_coords; cbn [data].
    f_equal. nia.
  - subst pt xo. cbn [add2 fst snd]. rewrite Hsize. field. exact Hnz.
  - subst pt yo. cbn [add2 fst snd]. rewrite Hsize. field. exact Hnz.
Qed.

Lemma tf_reshape_points {T} (t : tensor T) (m : Z) :
  Z.of_nat (length (data t)) = m * 2 -> 0 <= m ->
  tf_reshape t [1; -1; 2] = Ok (Tensor [1; m; 2] (data t)).
Proof.
  intros Hl Hm. unfold tf_reshape.
  assert (infer_dim (Z.of_nat (length (data t))) [1; -1; 2]
          = Some [1; m; 2]) as ->.
  { unfold infer_dim. cbn. rewrite Hl, Z.div_mul by lia. done. }
  cbn [forallb numel foldr data].
  replace (0 <=? m) with true by (symmetry; apply Z.leb_le; lia).
  replace (1 * (m * (2 * 1)) =? Z.of_nat (length (data t))) with true
    by (symmetry; apply Z.eqb_eq; lia).
  done.
Qed.

Lemma join_data_length {A T} (f : A -> tensor T) (xs : list A) (n : nat) :
  (forall x, length (data (f x)) = n) ->
  length (mjoin ((fun x => data (f x)) <$> xs)) = (length xs * n)%nat.
Proof.
  intros H. induction xs as [|x xs IH]; [done|].
  csimpl. rewrite length_app, H, IH. lia.
Qed.

(** C7, as the code has it: for a feature grid whose last axis has [C]
    channels and which [interpolate_bilinear] accepts, honouring its
    contract on it (the library's does on a grid of at least 2 x 2 cells
    and refuses a smaller one), and for a list of [N] boxes, [roialign]
    returns a tensor of shape [[N, pool*tiles, pool*tiles, C]] with a
    buffer of that size; for no boxes at all it returns the empty tensor
    of shape [[0, pool*tiles, pool*tiles, C]] and does not raise. *)
Theorem roialign_shape (interp : tensor Q -> tensor Q -> result (tensor Q))
    (features : tensor Q) (boxes : list box) (field : Q) (pool tiles C : Z) :
  last (shape features) = Some C -> 0 <= C -> 0 <= pool * tiles ->
  interpolates interp features C ->
  exists out,
    roialign interp features boxes field pool tiles = Ok out /\
    shape out = [Z.of_nat (length boxes); pool * tiles; pool * tiles; C] /\
    Z.of_nat (length (data out)) = numel (shape out) /\
    (boxes = [] -> data out = []).
Proof.
  intros Hlast HC Hpt Hinterp. unfold roialign.
  set (n := tiles * pool). assert (Hn : 0 <= n) by lia.
  set (N := Z.of_nat (length boxes)).
  set (offsets := tmap _ (vectorized_map _ _ boxes)).
  assert (Hlen : Z.of_nat (length (data offsets)) = N * (n * n) * 2).
  { subst offsets. unfold tmap, vectorized_map. cbn [data].
    rewrite length_fmap.
    rewrite (join_data_length _ _ (2 * (Z.to_nat n * Z.to_nat n))%nat)
      by (intros x; apply roialign_coords_length).
    subst N. nia. }
  rewrite (tf_reshape_points offsets (N * (n * n))) by (subst N; nia).
  rewrite bind_Ok.
  destruct (Hinterp (Tensor [1; N * (n * n); 2] (data offsets)) (N * (n * n)))
    as (o & Ho & Hso & Hlo); [done|by cbn [data]|].
  rewrite Ho, bind_Ok, Hlast. unfold or_raise. rewrite bind_Ok.
  rewrite tf_reshape_ok.
  - eexists. split; [done|]. cbn [shape data]. split; [done|]. split.
    + rewrite Hlo. cbn. subst n. ring.
    + intros ->. cbn in Hlen, Hlo. subst N. cbn in Hlo.
      destruct (data o); [done|]. cbn in Hlo. lia.
  - repeat constructor; subst N; lia.
  - rewrite Hlo. cbn. subst n. ring.
Qed.

(** C3: for a box with corner [(x, y)] and size [(w, h)] and grid indices
    [j], [k] below [pool*tiles], sample point number [k * (pool*tiles) + j]
    of [_roialign_coords], as [roialign] calls it, is
    [(x + w*(j + 0.5)/(pool*tiles), y + h*(k + 0.5)/(pool*tiles))]; for
    [pool = tiles = 1] the only sample point is the centre
    [(x + w/2, y + h/2)]. *)
Theorem roialign_coords_point (b : box) :
  (forall pool tiles j k : Z,
     0 <= j < pool * tiles -> 0 <= k < pool * tiles ->
     exists x y : Q,
       tget (_roialign_coords b (tiles * pool)) [k * (pool * tiles) + j; 0]
       = Some x /\
       tget (_roialign_coords b (tiles * pool)) [k * (pool * tiles) + j; 1]
       = Some y /\
       (x == bx b + bw b * (inject_Z j + (1 # 2)) / inject_Z (pool * tiles))%Q /\
       (y == by_ b + bh b * (inject_Z k + (1 # 2)) / inject_Z (pool * tiles))%Q) /\
  (exists x y : Q,
     _roialign_coords b (1 * 1) = Tensor [1; 2] [x; y] /\
     (x == bx b + bw b / 2)%Q /\ (y == by_ b + bh b / 2)%Q).
Proof.
  split; [apply roialign_coords_point_at|].
  eexists _, _. split; [reflexivity|].
  cbn [add2 fst snd].
  change (inject_Z (Z.of_nat (length (tf_range (1 * 1))))) with 1%Q.
  change (inject_Z (Z.of_nat 0 + 0)) with 0%Q.
  split; field.
Qed.

Lemma roialign_coords_point_witness :
  0 <= 1 < 1 * 2 /\ 0 <= 0 < 1 * 2 /\
  exists x y : Q,
    tget (_roialign_coords (Box 10 20 6 4) (2 * 1)) [0 * (1 * 2) + 1; 0] = Some x /\
    tget (_roialign_coords (Box 10 20 6 4) (2 * 1)) [0 * (1 * 2) + 1; 1] = Some y /\
    (x == 29 # 2)%Q /\ (y == 21)%Q.
Proof.
  split; [lia|]. split; [lia|].
  destruct (roialign_coords_point (Box 10 20 6 4)) as [H _].
  destruct (H 1 2 1 0) as (x & y & Hx & Hy & Ex & Ey); [lia..|].
  exists x, y. split; [exact Hx|]. split; [exact Hy|].
  split; [by rewrite Ex|by rewrite Ey].
Defined.

Lemma pairs_of_length {A} (m : nat) (l : list A) :
  length l = (2 * m)%nat -> length (pairs_of l) = m.
Proof.
  revert l. induction m as [|m IH]; intros l Hl.
  - by destruct l.
  - destruct l as [|x [|y l]]; [done|cbn in Hl; lia|].
    cbn [pairs_of length]. f_equal. apply IH. cbn in Hl. lia.
Qed.

Lemma bind_length_const {A B} (f : A -> list B) (n : nat) (l : list A) :
  (forall a, length (f a) = n) -> length (l ≫= f) = (length l * n)%nat.
Proof.
  intros Hf. induction l as [|a l IH]; [done|].
  csimpl. rewrite length_app, Hf, IH. lia.
Qed.

Lemma bilinear_xy_interpolates (grid : tensor Q) (h w C : Z) :
  shape grid = [1; h; w; C] -> 2 <= h -> 2 <= w -> 0 <= C ->
  interpolates bilinear_xy grid C.
Proof.
  intros Hs Hh Hw HC q M Hq Hl. unfold bilinear_xy. rewrite Hs, Hq.
  replace ((2 <=? h) && (2 <=? w)) with true
    by (symmetry; apply andb_true_iff; split; apply Z.leb_le; lia).
  eexists. split; [reflexivity|]. split; [reflexivity|]. cbn [data].
  rewrite (bind_length_const _ (Z.to_nat C)).
  - rewrite (pairs_of_length (Z.to_nat M)) by lia. lia.
  - intros p. unfold bilinear_point. by rewrite length_fmap, length_seqZ.
Qed.

Lemma roialign_shape_witness :
  let features := Tensor [1; 2; 2; 1] [1; 2; 3; 4]%Q in
  (exists out,
     roialign bilinear_xy features [Box 16 16 32 32; Box 0 0 64 64] 32 2 3
     = Ok out /\ shape out = [2; 6; 6; 1]) /\
  roialign bilinear_xy features [] 32 2 3 = Ok (Tensor [0; 6; 6; 1] []).
Proof.
  intros features.
  assert (Hint : interpolates bilinear_xy features 1)
    by (by apply (bilinear_xy_interpolates features 2 2 1)).
  split.
  - destruct (roialign_shape bilinear_xy features
                [Box 16 16 32 32; Box 0 0 64 64] 32 2 3 1)
      as (out & Ho & Hs & _); [reflexivity|lia|lia|exact Hint|].
    exists out. split; [exact Ho|exact Hs].
  - destruct (roialign_shape bilinear_xy features [] 32 2 3 1)
      as (out & Ho & Hs & _ & He); [reflexivity|lia|lia|exact Hint|].
    rewrite Ho. f_equal. destruct out as [s d]. cbn in Hs, He.
    by rewrite Hs, He.
Defined.

(** C7 as stated fails for the smallest grids: the interpolation refuses
    a feature grid under 2 x 2 cells, and on a 1 x 1 grid [roialign]
    raises instead of returning a [1 x 1 x 1 x 1] tensor. *)
Lemma roialign_refuses_small_grid :
  roialign bilinear_xy (Tensor [1; 1; 1; 1] [5%Q]) [Box 0 0 32 32] 32 1 1
  = Raise (ValueError "Grid must be at least 2 x 2").
Proof. by vm_compute. Qed.

(** ** [train_step] *)

Lemma bindM_lift {A B} (r : result A) (f : A -> M B) (st : train_state) :
  (lift r ≫= f) st
  = match r with Ok a => f a st | Raise e => (Raise e, st) end.
Proof. by destruct r. Qed.

Lemma bindM_get_weights {B} (f : gmap string Q -> M B) (st : train_state) :
  (get_weights ≫= f) st = f (weights st) st.
Proof. done. Qed.

Lemma bindM_get_standard {B} (f : list Metric -> M B) (st : train_state) :
  (get_standard ≫= f) st = f (standard st) st.
Proof. done. Qed.

Lemma bindM_apply_gradients {B} opt gv (f : unit -> M B) st :
  (apply_gradients opt gv ≫= f) st
  = match validate opt gv with
    | None => f () (applied opt gv st)
    | Some msg => (Raise (ValueError msg), st)
    end.
Proof.
  unfold mbind, M_bind, apply_gradients, applied.
  by destruct (validate opt gv).
Qed.

(** A traced function returns what its body returns; and a raise that
    has changed nothing is the same traced or not. *)
Lemma tf_function_Ok {A} (body : M A) (st : train_state) (a : A)
    (st' : train_state) :
  tf_function body st = (Ok a, st') -> body st = (Ok a, st').
Proof.
  unfold tf_function. destruct (body st) as [[b|e] st1]; [done|].
  intros H; discriminate H.
Qed.

Lemma tf_function_kept {A} (body : M A) (st : train_state) (e : error) :
  body st = (Raise e, st) -> tf_function body st = (Raise e, st).
Proof.
  unfold tf_function. intros ->. by destruct (raised_by_python e).
Qed.

Lemma bindM_standard_update {B} i args (f : unit -> M B) st :
  (standard_update i args ≫= f) st
  = match standard st !! i with
    | Some _ => f () (observes i args st)
    | None => (Raise (IndexError "standard"), st)
    end.
Proof.
  unfold mbind, M_bind, standard_update, observes.
  destruct (standard st !! i) as [m|] eqn:E; [|done].
  do 2 f_equal. 
  apply list_eq. intros j. destruct (decide (i = j)) as [<-|Hne].
  - rewrite list_lookup_insert_eq by (by eapply lookup_lt_Some).
    by rewrite list_lookup_alter_eq, E.
  - by rewrite list_lookup_insert_ne, list_lookup_alter_ne.
Qed.

Lemma names_observes i args st :
  name <$> standard (observes i args st) = name <$> standard st.
Proof.
  unfold observes; cbn [standard]. apply list_eq. intros j.
  rewrite !list_lookup_fmap. destruct (decide (i = j)) as [<-|Hne].
  - rewrite list_lookup_alter_eq. by destruct (standard st !! i).
  - by rewrite list_lookup_alter_ne.
Qed.

Section TrainStepFacts.
Variable ext : Externals.
Variable globals : gmap string FasterRCNN.
Variable self : FasterRCNN.

Ltac run_lift H x :=
  rewrite bindM_lift in H;
  match type of H with
  | context [match ?r with Ok _ => _ | Raise _ => _ end] =>
      let E := fresh "E" x in destruct r as [x|] eqn:E; [|discriminate H]
  end.

Ltac run_apply H :=
  rewrite bindM_apply_gradients in H;
  match type of H with
  | context [match ?r with Some _ => _ | None => _ end] =>
      let E := fresh "V" in destruct r eqn:E; [discriminate H|]
  end.

Ltac run_update H :=
  rewrite bindM_standard_update in H;
  match type of H with
  | context [match ?r with Some _ => _ | None => _ end] =>
      let E := fresh "U" in destruct r eqn:E; [|discriminate H]
  end.

Lemma train_step_returns data st out st' :
  train_step ext globals self data st = (Ok out, st') ->
  exists inp p r l,
    prepare ext self data = Ok inp /\
    proposal_stage ext self inp (weights st) = Ok p /\
    refinement_inputs ext self inp p (weights st) = Ok r /\
    refinement_loss globals r = Ok l /\
    weights st' = step_weights ext globals self inp (weights st) (iterations st) /\
    iterations st' = iterations st + 3 /\
    name <$> standard st' = name <$> standard st /\
    out = dict_of ((fun m => (name m, metric_result m)) <$> standard st')
          ∪ dict_of [("rpn_objectness", rpn_obj_loss p);
                     ("rpn_regression", rpn_reg_loss p);
                     ("align_regression", l)].
Proof.
  unfold train_step. intros H. apply tf_function_Ok in H.
  run_lift H inp. rewrite bindM_get_weights in H.
  run_lift H p. run_lift H r. run_lift H l.
  run_apply H. run_apply H. run_apply H.
  run_lift H i1. run_lift H i2.
  run_update H. run_update H. run_lift H obj. run_lift H col.
  do 5 run_update H.
  rewrite bindM_get_standard in H. injection H as <- <-.
  exists inp, p, r, l. do 4 (split; [done|]).
  split; [|split; [|split]].
  - unfold observes, applied, step_weights; cbn [weights iterations].
    by replace (iterations st + 1 + 1) with (iterations st + 2) by lia.
  - unfold observes, applied; cbn [iterations]. lia.
  - by rewrite !names_observes.
  - reflexivity.
Qed.

Lemma refinement_loss_unbound r :
  globals !! "model" = None -> refinement_loss globals r = Raise (NameError "model").
Proof. intros H. unfold refinement_loss. by rewrite H. Qed.

Lemma train_step_raises_early data st e :
  (inp ← prepare ext self data;
   align_reg_loss_of ext globals self inp (weights st)) = Raise e ->
  train_step ext globals self data st = (Raise e, st).
Proof.
  unfold train_step, align_reg_loss_of. intros H. apply tf_function_kept.
  rewrite bindM_lift. destruct (prepare ext self data) as [inp|e1];
    [rewrite bind_Ok in H|by injection H as <-].
  rewrite bindM_get_weights, bindM_lift.
  destruct (proposal_stage ext self inp (weights st)) as [p|e1];
    [rewrite bind_Ok in H|by injection H as <-].
  rewrite bindM_lift.
  destruct (refinement_inputs ext self inp p (weights st)) as [r|e1];
    [rewrite bind_Ok in H|by injection H as <-].
  rewrite bindM_lift. by rewrite H.
Qed.

(** Where a run of the step can stop: before its first update, with the
    state as it was; at an exception of Python's, traced, with the state
    as it was; or after its third update. *)
Lemma tf_function_stops {A} (body : M A) (st : train_state)
    (P : train_state -> Prop) :
  match body st with
  | (Ok _, st') => P st'
  | (Raise e, st') => st' = st \/ raised_by_python e = true \/ P st'
  end ->
  (tf_function body st).2 = st \/ P (tf_function body st).2.
Proof.
  unfold tf_function. destruct (body st) as [[a|e] st1]; cbn [snd].
  - by right.
  - intros [->|[->|H]].
    + left. by destruct (raised_by_python e).
    + by left.
    + destruct (raised_by_python e); [by left|by right].
Qed.

Ltac stop_here :=
  cbv beta iota;
  first
    [ by left
    | by (right; left)
    | right; right; eexists; split; [reflexivity|]; split;
      [ unfold observes, applied, step_weights; cbn [weights iterations];
        match goal with
        | |- context [iterations ?s + 1 + 1] =>
            by replace (iterations s + 1 + 1) with (iterations s + 2) by lia
        end
      | unfold observes, applied; cbn [iterations]; lia ] ].

Ltac walk_lift x :=
  rewrite bindM_lift;
  match goal with
  | |- context [match ?r with Ok _ => _ | Raise _ => _ end] =>
      destruct r as [x|] eqn:?; [|stop_here]
  end.

Ltac walk_apply :=
  rewrite bindM_apply_gradients;
  match goal with
  | |- context [match ?r with Some _ => _ | None => _ end] =>
      destruct r eqn:?; [stop_here|]
  end.

Ltac walk_update :=
  rewrite bindM_standard_update;
  match goal with
  | |- context [match ?r with Some _ => _ | None => _ end] =>
      destruct r eqn:?; [|stop_here]
  end.

Lemma train_step_stops data st :
  (train_step ext globals self data st).2 = st \/
  exists inp,
    prepare ext self data = Ok inp /\
    weights (train_step ext globals self data st).2
    = step_weights ext globals self inp (weights st) (iterations st) /\
    iterations (train_step ext globals self data st).2 = iterations st + 3.
Proof.
  unfold train_step.
  apply (tf_function_stops _ st
    (fun st' => exists inp,
       prepare ext self data = Ok inp /\
       weights st'
       = step_weights ext globals self inp (weights st) (iterations st) /\
       iterations st' = iterations st + 3)).
  walk_lift inp. rewrite bindM_get_weights.
  walk_lift p. walk_lift r. walk_lift l.
  walk_apply. walk_apply. walk_apply.
  walk_lift i1. walk_lift i2.
  walk_update. walk_update. walk_lift obj. walk_lift col.
  do 5 walk_update.
  rewrite bindM_get_standard. unfold mret, M_ret. cbv beta iota.
  eexists. split; [reflexivity|]. split.
  - unfold observes, applied, step_weights; cbn [weights iterations].
    by replace (iterations st + 1 + 1) with (iterations st + 2) by lia.
  - unfold observes, applied; cbn [iterations]. lia.
Qed.
End TrainStepFacts.

Lemma zip_fmap_self {A B} (f : A -> B) (l : list A) :
  zip (f <$> l) l = (fun a => (f a, a)) <$> l.
Proof. induction l as [|a l IH]; [done|]. cbn. by rewrite IH. Qed.

Lemma apply_gradients_lookup opt it (f : string -> option Q)
    (vars : list string) (W : gmap string Q) (v : string) :
  NoDup vars ->
  foldl (apply_gradient opt it) W (zip (f <$> vars) vars) !! v
  = if decide (v ∈ vars) then updated opt it v (f v) (W !! v) else W !! v.
Proof.
  rewrite zip_fmap_self. revert W.
  induction vars as [|a vars IH]; intros W Hnd.
  { cbn. by rewrite decide_False by apply not_elem_of_nil. }
  apply NoDup_cons in Hnd as [Ha Hnd].
  rewrite fmap_cons. cbn [foldl]. rewrite IH by done.
  unfold apply_gradient; cbn [fst snd].
  destruct (decide (v = a)) as [->|Hne].
  - rewrite decide_False by done.
    rewrite decide_True by apply list_elem_of_here.
    unfold updated. destruct (f a); [|done]. by rewrite lookup_alter_eq.
  - assert (Hlook : (match f a with
                     | Some g => alter (update_step opt it a g) a W
                     | None => W
                     end) !! v = W !! v).
    { destruct (f a); [|done]. by rewrite lookup_alter_ne. }
    destruct (decide (v ∈ vars)) as [Hv|Hv].
    + rewrite decide_True by (by apply list_elem_of_further). by rewrite Hlook.
    + rewrite decide_False; [done|]. by intros [?|?]%elem_of_cons.
Qed.

Lemma dict_of_fold_notin {V} (items : list (string * V)) (d : gmap string V) k :
  k ∉ items.*1 ->
  foldl (fun d kv => <[kv.1 := kv.2]> d) d items !! k = d !! k.
Proof.
  revert d. induction items as [|[k' v'] items IH]; intros d Hk; [done|].
  rewrite fmap_cons in Hk. apply not_elem_of_cons in Hk as [Hne Hk].
  cbn [foldl]. rewrite IH by done. by rewrite lookup_insert_ne.
Qed.

Lemma dict_of_fold_in {V} (items : list (string * V)) (d : gmap string V) k v :
  NoDup items.*1 -> (k, v) ∈ items ->
  foldl (fun d kv => <[kv.1 := kv.2]> d) d items !! k = Some v.
Proof.
  revert d. induction items as [|[k' v'] items IH]; intros d Hnd Hin.
  { by apply elem_of_nil in Hin. }
  rewrite fmap_cons in Hnd. apply NoDup_cons in Hnd as [Hk' Hnd].
  cbn [foldl]. apply elem_of_cons in Hin as [[= <- <-]|Hin].
  - rewrite dict_of_fold_notin by done. apply lookup_insert_eq.
  - by apply IH.
Qed.

Lemma dict_of_notin {V} (items : list (string * V)) k :
  k ∉ items.*1 -> dict_of items !! k = None.
Proof. intros H. unfold dict_of. by rewrite dict_of_fold_notin. Qed.

Lemma dict_of_in {V} (items : list (string * V)) k v :
  NoDup items.*1 -> (k, v) ∈ items -> dict_of items !! k = Some v.
Proof. apply dict_of_fold_in. Qed.

Lemma dict_of_is_Some {V} (items : list (string * V)) k :
  k ∈ items.*1 -> is_Some (dict_of items !! k).
Proof.
  unfold dict_of. generalize (∅ : gmap string V).
  induction items as [|[k' v'] items IH]; intros d Hin.
  { by apply elem_of_nil in Hin. }
  cbn [foldl]. destruct (decide (k ∈ items.*1)) as [Hk|Hk]; [by apply IH|].
  rewrite dict_of_fold_notin by done.
  rewrite fmap_cons in Hin. apply elem_of_cons in Hin as [->|?]; [|done].
  rewrite lookup_insert_eq. by eexists.
Qed.

Section TrainStepClaims.
Variable ext : Externals.
Variable globals : gmap string FasterRCNN.
Variable self : FasterRCNN.

Local Abbreviation bw := (trainable_weights (backbone self)).
Local Abbreviation rw := (trainable_weights (rpnetwork self)).
Local Abbreviation fw := (trainable_weights (fastrcnn self)).

(** C2, as the code has it: while no global named [model] is bound, every
    execution of [train_step] that gets through the statements before
    the refinement loss reaches it, reads the free name [model] and
    raises [NameError]; an execution in which an earlier statement raises
    does not reach it. In neither case does the step return or change
    the state. *)
Theorem train_step_unbound_model (data : train_data) (st : train_state) :
  globals !! "model" = None ->
  (forall r,
     before_refinement_loss ext self data (weights st) = Ok r ->
     train_step ext globals self data st = (Raise (NameError "model"), st)) /\
  raises (train_step ext globals self data st).1 /\
  (train_step ext globals self data st).2 = st.
Proof.
  intros Hm.
  assert (E : train_step ext globals self data st
              = (before_refinement_loss ext self data (weights st)
                   ≫= (fun _ => Raise (NameError "model")), st)).
  { unfold before_refinement_loss.
    destruct (prepare ext self data) as [inp|e] eqn:E1;
      [rewrite bind_Ok|
       by apply train_step_raises_early; rewrite E1].
    destruct (proposal_stage ext self inp (weights st)) as [p|e] eqn:E2;
      [rewrite bind_Ok|
       by apply train_step_raises_early; unfold align_reg_loss_of;
          rewrite E1, bind_Ok, E2].
    destruct (refinement_inputs ext self inp p (weights st)) as [r|e] eqn:E3;
      [rewrite bind_Ok|
       by apply train_step_raises_early; unfold align_reg_loss_of;
          rewrite E1, bind_Ok, E2, bind_Ok, E3].
    apply train_step_raises_early. unfold align_reg_loss_of.
    rewrite E1, bind_Ok, E2, bind_Ok, E3, bind_Ok.
    by apply refinement_loss_unbound. }
  rewrite E. cbn [fst snd]. split; [|split; [|done]].
  - by intros r ->.
  - by destruct (before_refinement_loss ext self data (weights st)).
Qed.


Lemma step_weights_lookup (inp : Inputs) (W : gmap string Q) (it : Z) (v : string) :
  NoDup (bw ++ rw ++ fw) ->
  step_weights ext globals self inp W it !! v
  = if decide (v ∈ bw) then
      updated (optimizer self) it v
        (tape_gradient ext (rpn_total_loss_of ext self inp) W v) (W !! v)
    else if decide (v ∈ rw) then
      updated (optimizer self) (it + 1) v
        (tape_gradient ext (rpn_total_loss_of ext self inp) W v) (W !! v)
    else if decide (v ∈ fw) then
      updated (optimizer self) (it + 2) v
        (tape_gradient ext (align_reg_loss_of ext globals self inp) W v) (W !! v)
    else W !! v.
Proof.
  intros Hnd. apply NoDup_app in Hnd as (Hb & Hbd & Hnd).
  apply NoDup_app in Hnd as (Hr & Hrd & Hf).
  unfold step_weights, gradient. cbv zeta.
  rewrite !apply_gradients_lookup by done.
  destruct (decide (v ∈ bw)) as [Hvb|Hvb].
  - assert (v ∉ rw ++ fw) as Hn by (by apply Hbd).
    apply not_elem_of_app in Hn as [? ?].
    by rewrite !decide_False by done.
  - destruct (decide (v ∈ rw)) as [Hvr|Hvr]; [|done].
    by rewrite decide_False by (by apply Hrd).
Qed.

Lemma step_weights_lookup_other (globals' : gmap string FasterRCNN)
    (f : Network (tensor Q)) (inp : Inputs) (W : gmap string Q) (it : Z)
    (v : string) :
  NoDup (bw ++ rw ++ trainable_weights f) ->
  step_weights ext globals' (with_fastrcnn self f) inp W it !! v
  = if decide (v ∈ bw) then
      updated (optimizer self) it v
        (tape_gradient ext (rpn_total_loss_of ext self inp) W v) (W !! v)
    else if decide (v ∈ rw) then
      updated (optimizer self) (it + 1) v
        (tape_gradient ext (rpn_total_loss_of ext self inp) W v) (W !! v)
    else if decide (v ∈ trainable_weights f) then
      updated (optimizer self) (it + 2) v
        (tape_gradient ext
           (align_reg_loss_of ext globals' (with_fastrcnn self f) inp) W v)
        (W !! v)
    else W !! v.
Proof.
  intros Hnd. apply NoDup_app in Hnd as (Hb & Hbd & Hnd).
  apply NoDup_app in Hnd as (Hr & Hrd & Hf).
  unfold step_weights, gradient. cbv zeta.
  change (optimizer (with_fastrcnn self f)) with (optimizer self).
  change (trainable_weights (backbone (with_fastrcnn self f))) with bw.
  change (trainable_weights (rpnetwork (with_fastrcnn self f))) with rw.
  change (trainable_weights (fastrcnn (with_fastrcnn self f)))
    with (trainable_weights f).
  change (rpn_total_loss_of ext (with_fastrcnn self f) inp)
    with (rpn_total_loss_of ext self inp).
  rewrite !apply_gradients_lookup by done.
  destruct (decide (v ∈ bw)) as [Hvb|Hvb].
  - assert (v ∉ rw ++ trainable_weights f) as Hn by (by apply Hbd).
    apply not_elem_of_app in Hn as [? ?].
    by rewrite !decide_False by done.
  - destruct (decide (v ∈ rw)) as [Hvr|Hvr]; [|done].
    by rewrite decide_False by (by apply Hrd).
Qed.

(** C6: in a completed step over disjoint weight sets, three
    [apply_gradients] calls have been made; each backbone variable and
    each proposal-network variable has been updated once, from the
    gradient of [rpn_total_loss], each refinement-network variable once,
    from the gradient of [align_reg_loss], and nothing else has changed.
    The refinement loss has no effect on the first two: with another
    refinement network or another global [model], the backbone and
    proposal-network variables end with the same values. *)
Theorem three_separate_updates (data : train_data) (st : train_state)
    (out : gmap string Q) (st' : train_state) :
  NoDup (bw ++ rw ++ fw) ->
  train_step ext globals self data st = (Ok out, st') ->
  exists inp,
    prepare ext self data = Ok inp /\
    iterations st' = iterations st + 3 /\
    (forall v, v ∈ bw ->
       weights st' !! v
       = updated (optimizer self) (iterations st) v
           (tape_gradient ext (rpn_total_loss_of ext self inp) (weights st) v)
           (weights st !! v)) /\
    (forall v, v ∈ rw ->
       weights st' !! v
       = updated (optimizer self) (iterations st + 1) v
           (tape_gradient ext (rpn_total_loss_of ext self inp) (weights st) v)
           (weights st !! v)) /\
    (forall v, v ∈ fw ->
       weights st' !! v
       = updated (optimizer self) (iterations st + 2) v
           (tape_gradient ext (align_reg_loss_of ext globals self inp)
              (weights st) v)
           (weights st !! v)) /\
    (forall v, v ∉ bw ++ rw ++ fw -> weights st' !! v = weights st !! v) /\
    (forall globals' f out2 st2,
       NoDup (bw ++ rw ++ trainable_weights f) ->
       train_step ext globals' (with_fastrcnn self f) data st = (Ok out2, st2) ->
       forall v, v ∈ bw ++ rw -> weights st2 !! v = weights st' !! v).
Proof.
  intros Hnd H.
  destruct (train_step_returns _ _ _ _ _ _ _ H)
    as (inp & p & r & l & Hinp & _ & _ & _ & HW & Hit & _ & _).
  pose proof Hnd as Hnd'.
  apply NoDup_app in Hnd' as (_ & Hbd & Hnd').
  apply NoDup_app in Hnd' as (_ & Hrd & _).
  exists inp. split; [done|]. split; [done|].
  assert (Hb : forall v, v ∈ bw ->
     weights st' !! v
     = updated (optimizer self) (iterations st) v
         (tape_gradient ext (rpn_total_loss_of ext self inp) (weights st) v)
         (weights st !! v)).
  { intros v Hv. rewrite HW, step_weights_lookup by done.
    by rewrite decide_True. }
  assert (Hr : forall v, v ∈ rw ->
     weights st' !! v
     = updated (optimizer self) (iterations st + 1) v
         (tape_gradient ext (rpn_total_loss_of ext self inp) (weights st) v)
         (weights st !! v)).
  { intros v Hv. rewrite HW, step_weights_lookup by done.
    rewrite decide_False, decide_True; [done..|].
    intros Hvb. apply (Hbd v Hvb). apply elem_of_app. by left. }
  split; [done|]. split; [done|]. split; [|split].
  - intros v Hv. rewrite HW, step_weights_lookup by done.
    rewrite decide_False, decide_False, decide_True; [done..| |].
    + intros Hvr. by apply (Hrd v Hvr).
    + intros Hvb. apply (Hbd v Hvb). apply elem_of_app. by right.
  - intros v Hv. rewrite HW, step_weights_lookup by done.
    apply not_elem_of_app in Hv as [? Hv].
    apply not_elem_of_app in Hv as [? ?].
    by rewrite !decide_False.
  - intros globals' f out2 st2 Hnd2 H2 v Hv.
    destruct (train_step_returns _ _ _ _ _ _ _ H2)
      as (inp2 & _ & _ & _ & Hinp2 & _ & _ & _ & HW2 & _ & _ & _).
    change (prepare ext (with_fastrcnn self f) data)
      with (prepare ext self data) in Hinp2.
    rewrite Hinp in Hinp2. injection Hinp2 as <-.
    pose proof (step_weights_lookup_other globals' f inp (weights st)
                  (iterations st) v Hnd2) as E.
    rewrite HW2, E.
    apply elem_of_app in Hv as [Hv|Hv].
    + rewrite decide_True by done. by rewrite Hb.
    + rewrite decide_False, decide_True; [by rewrite Hr|done|].
      intros Hvb. apply (Hbd v Hvb). apply elem_of_app. by left.
Qed.

Ltac invert_bind H :=
  match type of H with
  | (?m ≫= _) = Ok _ =>
      let E := fresh "E" in
      destruct m eqn:E; [rewrite bind_Ok in H|discriminate H]
  end.

Lemma proposal_stage_total_loss (inp : Inputs) (W : gmap string Q) (p : Proposal) :
  proposal_stage ext self inp W = Ok p ->
  rpn_total_loss p
  = (rpn_obj_loss p / 256
     + rpn_reg_loss p * lmbda self
       / inject_Z (Z.of_nat (length (anchors self))))%Q.
Proof.
  unfold proposal_stage. intros H. cbv zeta in H.
  repeat invert_bind H. by injection H as <-.
Qed.

(** C8: whenever the proposal stage completes, its total loss equals
    [rpn_obj_loss / 256 + lmbda * rpn_reg_loss / n], [n] the number of
    anchors of the fixed anchor set; it is the value of the target
    [rpn_total_loss_of], and in a completed step that target is the one
    differentiated for the backbone update and for the proposal-network
    update. *)
Theorem proposal_total_loss_formula (inp : Inputs) (W : gmap string Q)
    (p : Proposal) :
  proposal_stage ext self inp W = Ok p ->
  (rpn_total_loss p
   == rpn_obj_loss p / 256
      + lmbda self * rpn_reg_loss p
        / inject_Z (Z.of_nat (length (anchors self))))%Q /\
  rpn_total_loss_of ext self inp W = Ok (rpn_total_loss p) /\
  (forall data st out st',
     prepare ext self data = Ok inp -> weights st = W ->
     train_step ext globals self data st = (Ok out, st') ->
     let opt := optimizer self in
     let it := iterations st in
     let target := rpn_total_loss_of ext self inp in
     let W1 := foldl (apply_gradient opt it) W
                 (zip (gradient ext target W bw) bw) in
     let W2 := foldl (apply_gradient opt (it + 1)) W1
                 (zip (gradient ext target W rw) rw) in
     weights st'
     = foldl (apply_gradient opt (it + 2)) W2
         (zip (gradient ext (align_reg_loss_of ext globals self inp) W fw) fw)).
Proof.
  intros Hp. split; [|split].
  - rewrite (proposal_stage_total_loss inp W p Hp).
    unfold Qdiv. ring.
  - unfold rpn_total_loss_of. by rewrite Hp.
  - intros data st out st' Hinp <- H.
    destruct (train_step_returns _ _ _ _ _ _ _ H)
      as (inp2 & _ & _ & _ & Hinp2 & _ & _ & _ & HW & _).
    rewrite Hinp in Hinp2. injection Hinp2 as <-. exact HW.
Qed.

(** C9, as the code has it: the mapping a completed step returns has the
    keys "rpn_objectness", "rpn_regression" and "align_regression" and the
    name of every metric of [self.standard]. A loss key no metric is named
    after holds that loss; metrics with distinct names hold their
    [result()]. *)
Theorem train_step_output (data : train_data) (st : train_state)
    (out : gmap string Q) (st' : train_state) :
  train_step ext globals self data st = (Ok out, st') ->
  exists inp p r l,
    prepare ext self data = Ok inp /\
    proposal_stage ext self inp (weights st) = Ok p /\
    refinement_inputs ext self inp p (weights st) = Ok r /\
    refinement_loss globals r = Ok l /\
    is_Some (out !! "rpn_objectness") /\
    is_Some (out !! "rpn_regression") /\
    is_Some (out !! "align_regression") /\
    (forall m, m ∈ standard st' -> is_Some (out !! name m)) /\
    ("rpn_objectness" ∉ name <$> standard st ->
     out !! "rpn_objectness" = Some (rpn_obj_loss p)) /\
    ("rpn_regression" ∉ name <$> standard st ->
     out !! "rpn_regression" = Some (rpn_reg_loss p)) /\
    ("align_regression" ∉ name <$> standard st ->
     out !! "align_regression" = Some l) /\
    (NoDup (name <$> standard st) ->
     forall m, m ∈ standard st' -> out !! name m = Some (metric_result m)).
Proof.
  intros H.
  destruct (train_step_returns _ _ _ _ _ _ _ H)
    as (inp & p & r & l & Hinp & Hp & Hr & Hl & _ & _ & Hnames & ->).
  exists inp, p, r, l. do 4 (split; [done|]).
  set (items := (fun m => (name m, metric_result m)) <$> standard st').
  set (losses := [("rpn_objectness", rpn_obj_loss p);
                  ("rpn_regression", rpn_reg_loss p);
                  ("align_regression", l)]).
  assert (Hkeys : items.*1 = name <$> standard st).
  { subst items. by rewrite <- list_fmap_compose, <- Hnames. }
  assert (Hnd : NoDup losses.*1).
  { subst losses. cbn. compute_done. }
  assert (Hloss : forall k v, (k, v) ∈ losses ->
            is_Some ((dict_of items ∪ dict_of losses) !! k)).
  { intros k v Hin. apply lookup_union_is_Some. right.
    rewrite (dict_of_in losses k v) by done. by eexists. }
  assert (Hval : forall k v, (k, v) ∈ losses -> k ∉ name <$> standard st ->
            (dict_of items ∪ dict_of losses) !! k = Some v).
  { intros k v Hin Hk. rewrite lookup_union_r.
    - by apply dict_of_in.
    - apply dict_of_notin. by rewrite Hkeys. }
  split; [apply (Hloss _ (rpn_obj_loss p)); subst losses; set_solver|].
  split; [apply (Hloss _ (rpn_reg_loss p)); subst losses; set_solver|].
  split; [apply (Hloss _ l); subst losses; set_solver|].
  split; [|split; [|split; [|split]]].
  - intros m Hm. apply lookup_union_is_Some. left.
    apply dict_of_is_Some. rewrite Hkeys, <- Hnames.
    by apply list_elem_of_fmap_2.
  - apply Hval. subst losses; set_solver.
  - apply Hval. subst losses; set_solver.
  - apply Hval. subst losses; set_solver.
  - intros Hndm m Hm. rewrite lookup_union_l'.
    + apply dict_of_in; [by rewrite Hkeys|].
      subst items. by apply (list_elem_of_fmap_2 (fun m => (name m, metric_result m))).
    + apply dict_of_is_Some. rewrite Hkeys, <- Hnames.
      by apply list_elem_of_fmap_2.
Qed.
End TrainStepClaims.

(** ** The training step on the concrete instance *)

Lemma demo_prepare : prepare Demo.ext Demo.self Demo.data = Ok Demo.inp.
Proof. by vm_compute. Qed.

(** A run that does not raise has returned. *)
Lemma run_returns {A} (run : result A * train_state) :
  ~ raises run.1 -> exists out, run = (Ok out, run.2).
Proof.
  destruct run as [[out|e] st]; [by eauto|]. intros H. by destruct H.
Qed.

Lemma demo_step_returns :
  exists out st',
    train_step Demo.ext Demo.with_model Demo.self Demo.data Demo.st0
    = (Ok out, st').
Proof.
  destruct (run_returns
    (train_step Demo.ext Demo.with_model Demo.self Demo.data Demo.st0))
    as [out E]; [by vm_compute|]. by eauto.
Qed.

(** With [model] bound, as in the notebook, the step completes. *)
Example train_step_completes_with_model :
  exists out st',
    train_step Demo.ext Demo.with_model Demo.self Demo.data Demo.st0
    = (Ok out, st') /\
    iterations st' = 3 /\
    Qred <$> out !! "rpn_objectness" = Some 42%Q.
Proof.
  assert (H : match (train_step Demo.ext Demo.with_model Demo.self Demo.data
                       Demo.st0).1 with
              | Ok out => Qred <$> out !! "rpn_objectness"
              | Raise _ => None
              end = Some 42%Q) by (by vm_compute).
  assert (Hit : iterations (train_step Demo.ext Demo.with_model Demo.self
                              Demo.data Demo.st0).2 = 3) by (by vm_compute).
  destruct demo_step_returns as (out & st' & E). rewrite E in H, Hit.
  exists out, st'. split; [exact E|]. split; [exact Hit|exact H].
Qed.

Lemma train_step_unbound_model_witness :
  Demo.no_globals !! "model" = None /\
  train_step Demo.ext Demo.no_globals Demo.self Demo.data Demo.st0
  = (Raise (NameError "model"), Demo.st0).
Proof.
  split; [reflexivity|].
  destruct (train_step_unbound_model Demo.ext Demo.no_globals Demo.self
              Demo.data Demo.st0 eq_refl) as [H _].
  destruct (before_refinement_loss Demo.ext Demo.self Demo.data
              (weights Demo.st0)) as [r|e] eqn:E.
  - exact (H r eq_refl).
  - exfalso. by vm_compute in E.
Defined.

(** C2 as stated fails: a data sequence of one item is refused at the
    unpacking, with a [ValueError]; the step never reaches the refinement
    loss and raises no [NameError], although no [model] is bound. *)
Lemma short_data_raises_before_model :
  Demo.no_globals !! "model" = None /\
  train_step Demo.ext Demo.no_globals Demo.self (DataN 1) Demo.st0
  = (Raise (ValueError "unpack"), Demo.st0) /\
  train_step Demo.ext Demo.no_globals Demo.self (DataN 1) Demo.st0
  <> (Raise (NameError "model"), Demo.st0).
Proof.
  assert (E : train_step Demo.ext Demo.no_globals Demo.self (DataN 1) Demo.st0
              = (Raise (ValueError "unpack"), Demo.st0))
    by (by apply train_step_raises_early).
  split; [reflexivity|]. split; [exact E|]. rewrite E. intros H.
  discriminate H.
Qed.


Lemma three_separate_updates_witness :
  let run := train_step Demo.ext Demo.with_model Demo.self Demo.data Demo.st0 in
  NoDup (trainable_weights (backbone Demo.self)
         ++ trainable_weights (rpnetwork Demo.self)
         ++ trainable_weights (fastrcnn Demo.self)) /\
  (exists out, run = (Ok out, run.2)) /\
  iterations run.2 = iterations Demo.st0 + 3 /\
  weights run.2 !! "backbone/w"
  = updated (optimizer Demo.self) 0 "backbone/w"
      (tape_gradient Demo.ext (rpn_total_loss_of Demo.ext Demo.self Demo.inp)
         (weights Demo.st0) "backbone/w")
      (Some 1%Q).
Proof.
  intros run.
  assert (Hnd : NoDup (trainable_weights (backbone Demo.self)
                       ++ trainable_weights (rpnetwork Demo.self)
                       ++ trainable_weights (fastrcnn Demo.self)))
    by compute_done.
  destruct demo_step_returns as (out & st' & E).
  destruct (three_separate_updates Demo.ext Demo.with_model Demo.self
              Demo.data Demo.st0 out st' Hnd E)
    as (inp & Hinp & Hit & Hb & _).
  rewrite demo_prepare in Hinp. injection Hinp as <-.
  subst run. rewrite E. cbn [snd].
  split; [exact Hnd|]. split; [by exists out|]. split; [exact Hit|].
  apply (Hb "backbone/w"). by apply list_elem_of_here.
Defined.

Lemma proposal_total_loss_formula_witness :
  exists p,
    proposal_stage Demo.ext Demo.self Demo.inp (weights Demo.st0) = Ok p /\
    (rpn_total_loss p
     == rpn_obj_loss p / 256 + 1 * rpn_reg_loss p / inject_Z 4)%Q /\
    (rpn_total_loss p == 79157 # 128)%Q.
Proof.
  destruct (proposal_stage Demo.ext Demo.self Demo.inp (weights Demo.st0))
    as [p|e] eqn:E; [|by vm_compute in E].
  exists p. split; [reflexivity|].
  destruct (proposal_total_loss_formula Demo.ext Demo.with_model Demo.self
              Demo.inp (weights Demo.st0) p E) as (Hf & _ & _).
  split; [exact Hf|].
  vm_compute in E. injection E as <-. by vm_compute.
Defined.

Lemma train_step_output_witness :
  let run := train_step Demo.ext Demo.with_model Demo.self Demo.data Demo.st0 in
  exists out,
    run.1 = Ok out /\
    is_Some (out !! "rpn_objectness") /\
    is_Some (out !! "rpn_regression") /\
    is_Some (out !! "align_regression") /\
    forall m, m ∈ standard run.2 -> out !! name m = Some (metric_result m).
Proof.
  intros run.
  destruct demo_step_returns as (out & st' & E).
  destruct (train_step_output Demo.ext Demo.with_model Demo.self
              Demo.data Demo.st0 out st' E)
    as (_ & _ & _ & _ & _ & _ & _ & _ & H1 & H2 & H3 & _ & _ & _ & _ & Hm).
  subst run. rewrite E. cbn [fst snd].
  exists out. split; [reflexivity|]. do 3 (split; [done|]).
  apply Hm. compute_done.
Defined.

(** C9 as stated fails on the key names: the mapping a completed step
    returns has none of the keys "proposal_objectness",
    "proposal_regression" and "refinement_regression". *)
Lemma output_has_no_proposal_keys :
  exists out st',
    train_step Demo.ext Demo.with_model Demo.self Demo.data Demo.st0
    = (Ok out, st') /\
    out !! "proposal_objectness" = None /\
    out !! "proposal_regression" = None /\
    out !! "refinement_regression" = None.
Proof.
  assert (H : match (train_step Demo.ext Demo.with_model Demo.self Demo.data
                       Demo.st0).1 with
              | Ok out =>
                  (out !! "proposal_objectness", out !! "proposal_regression",
                   out !! "refinement_regression")
              | Raise _ => (Some 0%Q, Some 0%Q, Some 0%Q)
              end = (None, None, None)) by (by vm_compute).
  destruct demo_step_returns as (out & st' & E). rewrite E in H.
  cbn [fst] in H. injection H as H1 H2 H3. exists out, st'.
  split; [exact E|]. split; [exact H1|]. split; [exact H2|exact H3].
Qed.

(** ** More on [map_outputs] *)

Lemma Qfloor_between (q : Q) (c : Z) :
  (inject_Z c <= q)%Q -> (q < inject_Z (c + 1))%Q -> Qfloor q = c.
Proof.
  intros Hlo Hhi.
  assert (H1 : c <= Qfloor q).
  { rewrite <- (Qfloor_Z c). by apply Qfloor_resp_le. }
  assert (H2 : Qfloor q < c + 1).
  { rewrite Zlt_Qlt. eapply Qle_lt_trans; [apply Qfloor_le|done]. }
  lia.
Qed.

Lemma grid_coordinate_between (field x : Q) (c : Z) :
  (0 < field)%Q ->
  (field / 2 + inject_Z c * field <= x)%Q ->
  (x < field / 2 + (inject_Z c + 1) * field)%Q ->
  (inject_Z c <= (x - field / 2) / field)%Q /\
  ((x - field / 2) / field < inject_Z (c + 1))%Q.
Proof.
  intros Hf Hlo Hhi. split.
  - apply Qle_shift_div_l; [done|].
    set (t := (inject_Z c * field)%Q) in *. lra.
  - apply Qlt_shift_div_r; [done|]. rewrite inject_Z_plus.
    change (inject_Z 1) with 1%Q.
    set (t := ((inject_Z c + 1) * field)%Q) in *. lra.
Qed.

Lemma Qtruncate_small (q : Q) : (-1 < q)%Q -> (q < 1)%Q -> Qtruncate q = 0.
Proof.
  destruct q as [n d]. unfold Qlt, Qtruncate; cbn [Qnum Qden].
  intros Hlo Hhi. rewrite Z.mul_1_r in Hhi.
  destruct (Z_lt_le_dec n 0) as [Hn|Hn].
  - assert (E : Z.quot (- n) (Z.pos d) = 0) by (apply Z.quot_small; lia).
    rewrite Z.quot_opp_l in E by lia. lia.
  - apply Z.quot_small. lia.
Qed.

(** X1. The grid column (or row) of a candidate, in exact arithmetic: a
    centre coordinate in [[field/2 + c*field, field/2 + (c+1)*field)] is
    sent to cell [c], so cell [c] collects the pixels from the centre of
    receptive field [c] up to the centre of the next one. *)
Theorem anchor_px_pos_cell (field x : Q) (c : Z) :
  (0 < field)%Q -> 0 <= c <= int32_max ->
  (field / 2 + inject_Z c * field <= x)%Q ->
  (x < field / 2 + (inject_Z c + 1) * field)%Q ->
  anchor_px_pos field x = c.
Proof.
  intros Hf Hc Hlo Hhi.
  destruct (grid_coordinate_between field x c Hf Hlo Hhi) as [H1 H2].
  unfold anchor_px_pos.
  rewrite cast_int32_floor; rewrite (Qfloor_between _ c H1 H2); done.
Qed.

Lemma anchor_px_pos_cell_witness :
  anchor_px_pos 32 47 = 0 /\ anchor_px_pos 32 48 = 1.
Proof.
  split.
  - apply (anchor_px_pos_cell 32 47 0);
      [reflexivity|by vm_compute|by vm_compute|reflexivity].
  - apply (anchor_px_pos_cell 32 48 1);
      [reflexivity|by vm_compute|by vm_compute|reflexivity].
Defined.

(** X2. The cast truncates toward zero, it does not floor. In exact
    arithmetic (the rounding of [float32], which at a coordinate next to
    [-field/2] can bring the quotient to -1, is not modelled), a
    coordinate within half a field on either side of zero, left of the
    centre of the first receptive field, is sent to cell 0 although its
    floor cell is -1. *)
Theorem anchor_px_pos_before_first_cell (field x : Q) :
  (0 < field)%Q -> (- (field / 2) < x)%Q -> (x < field / 2)%Q ->
  anchor_px_pos field x = 0 /\ cell_of field x = -1.
Proof.
  intros Hf Hlo Hhi.
  assert (H1 : (-1 < (x - field / 2) / field)%Q).
  { apply Qlt_shift_div_l; [done|].
    unfold Qdiv in *. change (/ 2)%Q with (1 # 2)%Q in *. lra. }
  assert (H2 : ((x - field / 2) / field < 0)%Q).
  { apply Qlt_shift_div_r; [done|].
    unfold Qdiv in *. change (/ 2)%Q with (1 # 2)%Q in *. lra. }
  split.
  - unfold anchor_px_pos, cast_int32. rewrite Qtruncate_small; [done|done|lra].
  - unfold cell_of. apply Qfloor_between; [|done].
    apply Qlt_le_weak. exact H1.
Qed.

Lemma anchor_px_pos_before_first_cell_witness :
  anchor_px_pos 32 0 = 0 /\ cell_of 32 0 = -1.
Proof. by apply anchor_px_pos_before_first_cell. Defined.

(** *** What a call that returns has done *)

Lemma map_fn_length {A B} (f : A -> result B) (xs : list A) (ys : list B) :
  map_fn f xs = Ok ys -> length ys = length xs.
Proof.
  revert ys. induction xs as [|x xs IH]; intros ys H.
  - by injection H as <-.
  - cbn [map_fn] in H. destruct (f x) as [y|]; [|done]. rewrite bind_Ok in H.
    destruct (map_fn f xs) as [ys'|]; [|done]. rewrite bind_Ok in H.
    injection H as <-. cbn. f_equal. by apply IH.
Qed.

Lemma map_fn_app {A B} (f : A -> result B) (xs1 xs2 : list A)
    (ys1 ys2 : list B) :
  map_fn f xs1 = Ok ys1 -> map_fn f xs2 = Ok ys2 ->
  map_fn f (xs1 ++ xs2) = Ok (ys1 ++ ys2).
Proof.
  revert ys1. induction xs1 as [|x xs1 IH]; intros ys1 H1 H2.
  - by injection H1 as <-.
  - cbn [map_fn app] in *. destruct (f x) as [y|]; [|done].
    rewrite bind_Ok in *.
    destruct (map_fn f xs1) as [ys'|]; [|done]. rewrite bind_Ok in H1.
    injection H1 as <-. by rewrite (IH ys' eq_refl H2).
Qed.

Lemma stack4_length (a b c d : list Z) (n : nat) :
  length a = n -> length b = n -> length c = n -> length d = n ->
  length (stack4 a b c d) = n.
Proof.
  revert a b c d. induction n as [|n IH]; intros a b c d Ha Hb Hc Hd.
  - by destruct a.
  - destruct a, b, c, d; try done. cbn in *. f_equal. apply IH; lia.
Qed.

Lemma stack4_app (a b c d a' b' c' d' : list Z) :
  length b = length a -> length c = length a -> length d = length a ->
  stack4 (a ++ a') (b ++ b') (c ++ c') (d ++ d')
  = stack4 a b c d ++ stack4 a' b' c' d'.
Proof.
  revert b c d. induction a as [|x a IH]; intros b c d Hb Hc Hd.
  - by destruct b, c, d.
  - destruct b, c, d; try done. cbn in *. f_equal. apply IH; lia.
Qed.

Lemma gather_rows_app {T} (p : tensor T) (l1 l2 : list (list Z))
    (b1 b2 : list T) :
  gather_rows p l1 = Ok b1 -> gather_rows p l2 = Ok b2 ->
  gather_rows p (l1 ++ l2) = Ok (b1 ++ b2).
Proof.
  revert b1. induction l1 as [|i l1 IH]; intros b1 H1 H2.
  - by injection H1 as <-.
  - cbn [gather_rows app] in *. destruct (gather_slice p i) as [r|]; [|done].
    rewrite bind_Ok in *.
    destruct (gather_rows p l1) as [rs|]; [|done]. rewrite bind_Ok in H1.
    injection H1 as <-. rewrite (IH rs eq_refl H2), bind_Ok.
    by rewrite app_assoc.
Qed.

(** The indices [map_outputs] gathers at. *)
Lemma map_outputs_inv {T} (output : tensor T) (anchors : list box)
    (anchor_px : list Z) (field : Q) (m : tensor T) :
  map_outputs output anchors anchor_px field = Ok m ->
  exists index s reshaped buf,
    anchor_index anchor_px anchors = Ok index /\
    length index = length anchors /\
    split_shape (shape output) (Z.of_nat (length anchor_px)) = Ok s /\
    tf_reshape output s = Ok reshaped /\
    gather_rows reshaped
      (stack4 (replicate (length anchors) 0)
         (anchor_px_pos field <$> (by_ <$> anchors))
         (anchor_px_pos field <$> (bx <$> anchors)) index) = Ok buf /\
    m = Tensor (Z.of_nat (length anchors) :: drop 4 (shape reshaped)) buf.
Proof.
  unfold map_outputs, tf_gather_nd. intros H.
  destruct (anchor_index anchor_px anchors) as [index|] eqn:Ei; [|done].
  rewrite bind_Ok in H.
  destruct (split_shape _ _) as [s|] eqn:Es; [|done]. rewrite bind_Ok in H.
  destruct (tf_reshape output s) as [reshaped|] eqn:Er; [|done].
  rewrite bind_Ok in H. rewrite !length_fmap in H.
  destruct (gather_rows _ _) as [buf|] eqn:Eg; [|done]. rewrite bind_Ok in H.
  assert (Hlen : length index = length anchors).
  { unfold anchor_index in Ei. apply map_fn_length in Ei.
    by rewrite !length_fmap in Ei. }
  exists index, s, reshaped, buf. do 5 (split; [done|]).
  injection H as <-. f_equal. f_equal. f_equal.
  apply stack4_length; by rewrite ?length_replicate, ?length_fmap.
Qed.

Lemma map_outputs_shape0 {T} (output : tensor T) (anchors : list box)
    (anchor_px : list Z) (field : Q) (m : tensor T) :
  map_outputs output anchors anchor_px field = Ok m ->
  head (shape m) = Some (Z.of_nat (length anchors)).
Proof.
  intros H. apply map_outputs_inv in H as (? & ? & ? & ? & _ & _ & _ & _ & _ & ->).
  done.
Qed.

(** *** The values are moved, never computed on *)

Lemma tf_reshape_tmap {A B} (f : A -> B) (t : tensor A) (s : list Z) :
  tf_reshape (tmap f t) s = tmap f <$> tf_reshape t s.
Proof.
  unfold tf_reshape, tmap. cbn [data shape]. rewrite length_fmap.
  destruct (infer_dim _ s) as [s'|]; [|done].
  by destruct (forallb _ s' && _).
Qed.

Lemma gather_slice_tmap {A B} (f : A -> B) (p : tensor A) (idx : list Z) :
  gather_slice (tmap f p) idx = (fun l : list A => f <$> l) <$> gather_slice p idx.
Proof.
  unfold gather_slice, tmap. cbn [data shape].
  destruct (ravel (shape p) idx 0); [|done].
  cbn. by rewrite fmap_take, fmap_drop.
Qed.

Lemma gather_rows_tmap {A B} (f : A -> B) (p : tensor A)
    (l : list (list Z)) :
  gather_rows (tmap f p) l = (fun b : list A => f <$> b) <$> gather_rows p l.
Proof.
  induction l as [|i l IH]; [done|]. cbn [gather_rows].
  rewrite gather_slice_tmap, IH.
  destruct (gather_slice p i) as [r|]; [|done].
  destruct (gather_rows p l) as [rs|]; [|done].
  cbn. by rewrite fmap_app.
Qed.

(** X3. [map_outputs] commutes with any elementwise map of the grid: each
    entry of its result is an entry of the grid at a place that depends
    on the candidates and the shape alone. *)
Theorem map_outputs_tmap {A B} (f : A -> B) (output : tensor A)
    (anchors : list box) (anchor_px : list Z) (field : Q) :
  map_outputs (tmap f output) anchors anchor_px field
  = tmap f <$> map_outputs output anchors anchor_px field.
Proof.
  unfold map_outputs, tf_gather_nd.
  destruct (anchor_index anchor_px anchors) as [index|]; [|done].
  rewrite !bind_Ok. cbn [tmap shape].
  destruct (split_shape _ _) as [s|]; [|done]. rewrite !bind_Ok.
  rewrite tf_reshape_tmap.
  destruct (tf_reshape output s) as [reshaped|]; [|done].
  cbn [fmap result_fmap]. rewrite !bind_Ok, gather_rows_tmap.
  by destruct (gather_rows reshaped _).
Qed.

(** *** Candidates in two lists *)

(** X4. Mapping two candidate lists and concatenating the results along the
    first axis, as the training step does with the positive and the
    negative anchors, is mapping the concatenated list. *)
Theorem map_outputs_app {T} (output : tensor T) (l1 l2 : list box)
    (anchor_px : list Z) (field : Q) (m1 m2 : tensor T) :
  map_outputs output l1 anchor_px field = Ok m1 ->
  map_outputs output l2 anchor_px field = Ok m2 ->
  map_outputs output (l1 ++ l2) anchor_px field = tf_concat0 m1 m2 /\
  tf_concat0 m1 m2
  = Ok (Tensor (Z.of_nat (length (l1 ++ l2)) :: tail (shape m1))
          (data m1 ++ data m2)).
Proof.
  intros H1 H2.
  apply map_outputs_inv in H1
    as (i1 & s1 & r1 & b1 & Hi1 & Hl1 & Hs1 & Hr1 & Hg1 & ->).
  apply map_outputs_inv in H2
    as (i2 & s2 & r2 & b2 & Hi2 & Hl2 & Hs2 & Hr2 & Hg2 & ->).
  rewrite Hs1 in Hs2. injection Hs2 as <-.
  rewrite Hr1 in Hr2. injection Hr2 as <-.
  assert (Hc : tf_concat0
                 (Tensor (Z.of_nat (length l1) :: drop 4 (shape r1)) b1)
                 (Tensor (Z.of_nat (length l2) :: drop 4 (shape r1)) b2)
               = Ok (Tensor (Z.of_nat (length (l1 ++ l2)) :: drop 4 (shape r1))
                       (b1 ++ b2))).
  { unfold tf_concat0. cbn [shape data]. rewrite decide_True by done.
    rewrite length_app. do 3 f_equal. lia. }
  split; [|exact Hc]. rewrite Hc.
  unfold map_outputs, tf_gather_nd.
  assert (Hi : anchor_index anchor_px (l1 ++ l2) = Ok (i1 ++ i2)).
  { unfold anchor_index in *. rewrite !fmap_app. by apply map_fn_app. }
  rewrite Hi, bind_Ok, Hs1, bind_Ok, Hr1, bind_Ok.
  rewrite !fmap_app, !length_app, !length_fmap, replicate_add.
  rewrite stack4_app
    by (by rewrite ?length_replicate, ?length_fmap).
  rewrite (gather_rows_app _ _ _ b1 b2 Hg1 Hg2), bind_Ok.
  rewrite length_app.
  rewrite !(stack4_length _ _ _ _ _ eq_refl)
    by (by rewrite ?length_replicate, ?length_fmap).
  by rewrite !length_replicate.
Qed.

Lemma map_outputs_app_witness :
  exists m1 m2,
    map_outputs Demo.grid [Demo.large] Demo.sizes 32 = Ok m1 /\
    map_outputs Demo.grid [Demo.square; Demo.odd] Demo.sizes 32 = Ok m2 /\
    map_outputs Demo.grid [Demo.large; Demo.square; Demo.odd] Demo.sizes 32
    = Ok (Tensor [3; 2] (data m1 ++ data m2)).
Proof.
  destruct (map_outputs Demo.grid [Demo.large] Demo.sizes 32)
    as [m1|] eqn:E1; [|by vm_compute in E1].
  destruct (map_outputs Demo.grid [Demo.square; Demo.odd] Demo.sizes 32)
    as [m2|] eqn:E2; [|by vm_compute in E2].
  exists m1, m2. do 2 (split; [reflexivity|]).
  destruct (map_outputs_app Demo.grid [Demo.large] [Demo.square; Demo.odd]
              Demo.sizes 32 m1 m2 E1 E2) as [H1 H2].
  change ([Demo.large; Demo.square; Demo.odd])
    with ([Demo.large] ++ [Demo.square; Demo.odd]).
  rewrite H1, H2. vm_compute in E1. injection E1 as <-. reflexivity.
Defined.

(** *** Positions inside and outside the grid *)

Lemma gather_rows_raises {T} (p : tensor T) (l : list (list Z))
    (idx : list Z) :
  idx ∈ l -> ravel (shape p) idx 0 = None ->
  gather_rows p l = Raise (InvalidArgumentError "GatherNd").
Proof.
  intros Hin Hr. induction l as [|i l IH]; [by apply elem_of_nil in Hin|].
  cbn [gather_rows]. apply elem_of_cons in Hin as [<-|Hin].
  - unfold gather_slice. by rewrite Hr.
  - unfold gather_slice at 1. destruct (ravel (shape p) i 0); [|done].
    rewrite bind_Ok, (IH Hin). done.
Qed.

Lemma ravel4_inv (d0 d1 d2 d3 : Z) (rest : list Z) (i0 i1 i2 i3 off : Z) :
  ravel (d0 :: d1 :: d2 :: d3 :: rest) [i0; i1; i2; i3] 0 = Some off ->
  (0 <= i0 < d0 /\ 0 <= i1 < d1 /\ 0 <= i2 < d2 /\ 0 <= i3 < d3) /\
  off = ((i0 * d1 + i1) * d2 + i2) * d3 + i3.
Proof.
  cbn [ravel]. intros H.
  destruct ((0 <=? i0) && (i0 <? d0)) eqn:E0; [|done].
  destruct ((0 <=? i1) && (i1 <? d1)) eqn:E1; [|done].
  destruct ((0 <=? i2) && (i2 <? d2)) eqn:E2; [|done].
  destruct ((0 <=? i3) && (i3 <? d3)) eqn:E3; [|done].
  apply andb_true_iff in E0 as [?%Z.leb_le ?%Z.ltb_lt].
  apply andb_true_iff in E1 as [?%Z.leb_le ?%Z.ltb_lt].
  apply andb_true_iff in E2 as [?%Z.leb_le ?%Z.ltb_lt].
  apply andb_true_iff in E3 as [?%Z.leb_le ?%Z.ltb_lt].
  injection H as <-. split; [lia|]. f_equal; lia.
Qed.

Lemma ravel4_None (d0 d1 d2 d3 : Z) (rest : list Z) (i0 i1 i2 i3 : Z) :
  ~ (0 <= i0 < d0 /\ 0 <= i1 < d1 /\ 0 <= i2 < d2 /\ 0 <= i3 < d3) ->
  ravel (d0 :: d1 :: d2 :: d3 :: rest) [i0; i1; i2; i3] 0 = None.
Proof.
  intros Hn. destruct (ravel _ _ 0) as [off|] eqn:E; [|done].
  by apply ravel4_inv in E as [? _].
Qed.

(** With the grid split by anchor size, what is left of [map_outputs] is
    the gather. *)
Lemma map_outputs_gather {T} (output : tensor T) (anchors : list box)
    (anchor_px : list Z) (field : Q) (R C c : Z) :
  wf_tensor output ->
  shape output = [1; R; C; Z.of_nat (length anchor_px) * c] ->
  anchor_px <> [] ->
  map_outputs output anchors anchor_px field
  = (buf ← gather_rows
             (Tensor [1; R; C; Z.of_nat (length anchor_px); c] (data output))
             ((fun a => [0; anchor_px_pos field (by_ a);
                         anchor_px_pos field (bx a);
                         slot_of anchor_px (cast_int32 (bh a))]) <$> anchors);
     Ok (Tensor [Z.of_nat (length anchors); c] buf)).
Proof.
  intros Hwf Hshape HK.
  destruct (grid_dims_bounds output anchor_px R C c Hwf Hshape HK)
    as (HR & HC & Hc0 & Hl).
  assert (HK0 : 0 < Z.of_nat (length anchor_px))
    by (destruct anchor_px; [done|cbn [length]; lia]).
  unfold map_outputs. rewrite anchor_index_ok, bind_Ok by done.
  rewrite Hshape. unfold split_shape. cbn [last removelast app].
  destruct (decide (Z.of_nat (length anchor_px) = 0)) as [?|_]; [lia|].
  replace (Z.of_nat (length anchor_px) * c / Z.of_nat (length anchor_px))
    with c by (rewrite Z.mul_comm, Z.div_mul; lia).
  rewrite bind_Ok, tf_reshape_ok; cycle 1.
  { repeat constructor; lia. }
  { cbn. lia. }
  rewrite bind_Ok. unfold tf_gather_nd. cbn [shape drop].
  rewrite <- !list_fmap_compose, length_fmap.
  rewrite (stack4_fmap (anchor_px_pos field ∘ by_) (anchor_px_pos field ∘ bx)).
  by rewrite length_fmap.
Qed.

(** X5. On a well-formed grid for [K] anchor sizes and with a positive
    field, [map_outputs] returns when every candidate's position, as
    computed in exact arithmetic, lies inside the grid, and raises the
    gather's error as soon as one lies outside: in no case does it read
    another cell in place of the missing one. *)
Theorem map_outputs_returns_iff_in_grid {T} (output : tensor T)
    (anchors : list box) (anchor_px : list Z) (field : Q) (R C c : Z) :
  wf_tensor output ->
  shape output = [1; R; C; Z.of_nat (length anchor_px) * c] ->
  anchor_px <> [] ->
  (0 < field)%Q ->
  (Forall (in_grid field R C) anchors ->
   exists m, map_outputs output anchors anchor_px field = Ok m) /\
  (forall a, a ∈ anchors -> ~ in_grid field R C a ->
   map_outputs output anchors anchor_px field
   = Raise (InvalidArgumentError "GatherNd")).
Proof.
  intros Hwf Hshape HK _.
  rewrite (map_outputs_gather output anchors anchor_px field R C c) by done.
  split.
  - intros Hall.
    rewrite (gather_rows_fmap _ _
      (fun a => take (Z.to_nat (c * 1))
         (drop (Z.to_nat
            ((((0 * R + anchor_px_pos field (by_ a)) * C
               + anchor_px_pos field (bx a)) * Z.of_nat (length anchor_px)
              + slot_of anchor_px (cast_int32 (bh a))) * (c * 1)))
            (data output)))).
    + rewrite bind_Ok. by eexists.
    + intros a Ha. rewrite Forall_forall in Hall.
      destruct (Hall a Ha) as [Hy Hx].
      pose proof (slot_of_bound anchor_px (cast_int32 (bh a)) HK) as Hs.
      unfold gather_slice. cbn [shape data].
      rewrite ravel4 by lia. done.
  - intros a Ha Hout.
    rewrite (gather_rows_raises _ _
      [0; anchor_px_pos field (by_ a); anchor_px_pos field (bx a);
       slot_of anchor_px (cast_int32 (bh a))]); [done| |].
    + by apply (list_elem_of_fmap_2
        (fun a => [0; anchor_px_pos field (by_ a); anchor_px_pos field (bx a);
                   slot_of anchor_px (cast_int32 (bh a))])).
    + cbn [shape]. apply ravel4_None. intros (_ & Hy & Hx & _).
      apply Hout. by split.
Qed.

Lemma map_outputs_returns_iff_in_grid_witness :
  (exists m, map_outputs Demo.grid [Demo.large; Box 16 16 32 32] Demo.sizes 32
             = Ok m) /\
  map_outputs Demo.grid [Demo.large; Box 112 16 32 32] Demo.sizes 32
  = Raise (InvalidArgumentError "GatherNd").
Proof.
  assert (Hwf : wf_tensor Demo.grid).
  { split; [|done]. repeat constructor; by vm_compute. }
  split.
  - apply (map_outputs_returns_iff_in_grid Demo.grid
             [Demo.large; Box 16 16 32 32] Demo.sizes 32 2 3 2 Hwf eq_refl);
      [done|reflexivity|]. repeat constructor; by vm_compute.
  - apply (map_outputs_returns_iff_in_grid Demo.grid
             [Demo.large; Box 112 16 32 32] Demo.sizes 32 2 3 2 Hwf eq_refl
             ltac:(done) eq_refl) with (a := Box 112 16 32 32).
    + apply list_elem_of_further, list_elem_of_here.
    + intros [_ [_ H]]. by vm_compute in H.
Defined.

(** X6. With no candidate at all the result is the empty matrix of [c]
    columns, whatever the grid holds. *)
Theorem map_outputs_no_candidates {T} (output : tensor T)
    (anchor_px : list Z) (field : Q) (R C c : Z) :
  wf_tensor output ->
  shape output = [1; R; C; Z.of_nat (length anchor_px) * c] ->
  anchor_px <> [] ->
  map_outputs output [] anchor_px field = Ok (Tensor [0; c] []).
Proof.
  intros Hwf Hshape HK.
  by rewrite (map_outputs_gather output [] anchor_px field R C c).
Qed.

Lemma map_outputs_no_candidates_witness :
  map_outputs Demo.grid [] Demo.sizes 32 = Ok (Tensor [0; 2] []).
Proof.
  apply (map_outputs_no_candidates Demo.grid Demo.sizes 32 2 3 2);
    [|reflexivity|done].
  split; [|done]. repeat constructor; by vm_compute.
Defined.

(** *** The shape of the result *)

Lemma stack4_elem (a b c d : list Z) (idx : list Z) :
  idx ∈ stack4 a b c d -> exists x y z w, idx = [x; y; z; w].
Proof.
  revert b c d. induction a as [|x a IH]; intros b c d H.
  - by apply elem_of_nil in H.
  - destruct b as [|y b], c as [|z c], d as [|w d];
      try by apply elem_of_nil in H.
    cbn [stack4] in H. apply elem_of_cons in H as [->|H]; [by eauto|].
    by apply IH in H.
Qed.

Lemma gather_rows_length {T} (p : tensor T) (l : list (list Z))
    (buf : list T) (n : nat) :
  (forall idx row, idx ∈ l -> gather_slice p idx = Ok row -> length row = n) ->
  gather_rows p l = Ok buf -> length buf = (length l * n)%nat.
Proof.
  revert buf. induction l as [|i l IH]; intros buf Hrow H.
  - by injection H as <-.
  - cbn [gather_rows] in H.
    destruct (gather_slice p i) as [r|] eqn:Er; [|done]. rewrite bind_Ok in H.
    destruct (gather_rows p l) as [rs|] eqn:Ers; [|done]. rewrite bind_Ok in H.
    injection H as <-. rewrite length_app, (Hrow i r), (IH rs); [done| |done|..].
    + intros idx row Hin. apply Hrow. by apply list_elem_of_further.
    + apply list_elem_of_here.
    + done.
Qed.

(** X7. A call on a well-formed rank-4 grid that returns has returned a
    matrix with one row per candidate, in a full buffer, and
    [D / K] columns for a grid of [D] channels and [K] anchor sizes. *)
Theorem map_outputs_rows {T} (output : tensor T) (anchors : list box)
    (anchor_px : list Z) (field : Q) (b R C D : Z) (m : tensor T) :
  wf_tensor output -> shape output = [b; R; C; D] ->
  map_outputs output anchors anchor_px field = Ok m ->
  anchor_px <> [] /\
  shape m = [Z.of_nat (length anchors); D / Z.of_nat (length anchor_px)] /\
  Z.of_nat (length (data m))
  = Z.of_nat (length anchors) * (D / Z.of_nat (length anchor_px)).
Proof.
  intros [Hd _] Hshape H.
  apply map_outputs_inv in H
    as (index & s & reshaped & buf & _ & Hlen & Hs & Hr & Hg & ->).
  rewrite Hshape in Hd, Hs.
  repeat (apply Forall_cons in Hd as [? Hd]).
  unfold split_shape in Hs. cbn [last removelast app] in Hs.
  destruct (decide (Z.of_nat (length anchor_px) = 0)) as [?|HK0]; [done|].
  injection Hs as <-.
  set (K := Z.of_nat (length anchor_px)) in *.
  assert (HK : 0 < K) by lia.
  assert (Hc : 0 <= D / K) by (apply Z.div_pos; lia).
  unfold tf_reshape in Hr.
  rewrite infer_dim_nonneg in Hr by (repeat constructor; lia).
  destruct (forallb _ _ && (numel _ =? _)) eqn:Eb; [|done].
  apply andb_true_iff in Eb as [_ Hn%Z.eqb_eq]. injection Hr as <-.
  cbn [numel foldr] in Hn. cbn [shape drop data] in *.
  split; [by destruct anchor_px|]. split; [done|].
  apply (gather_rows_length _ _ _ (Z.to_nat (D / K))) in Hg.
  - rewrite Hg, (stack4_length _ _ _ _ (length anchors))
      by (by rewrite ?length_replicate, ?length_fmap).
    rewrite Nat2Z.inj_mul, Z2Nat.id by done. done.
  - intros idx row Hin Hrow.
    apply stack4_elem in Hin as (x & y & z & w & ->).
    unfold gather_slice in Hrow. cbn [shape data length drop] in Hrow.
    destruct (ravel _ _ 0) as [off|] eqn:Eo; [|done].
    apply ravel4_inv in Eo as [(Hx & Hy & Hz & Hw) ->].
    injection Hrow as <-. cbn [numel foldr]. rewrite Z.mul_1_r.
    set (off := ((x * R + y) * C + z) * K + w).
    assert (0 <= x * R) by (apply Z.mul_nonneg_nonneg; lia).
    assert (x * R + y + 1 <= b * R) by nia.
    assert (0 <= (x * R + y) * C) by (apply Z.mul_nonneg_nonneg; lia).
    assert ((x * R + y + 1) * C <= b * R * C)
      by (apply Z.mul_le_mono_nonneg_r; lia).
    assert (0 <= ((x * R + y) * C + z) * K)
      by (apply Z.mul_nonneg_nonneg; lia).
    assert (((x * R + y) * C + z + 1) * K <= b * R * C * K)
      by (apply Z.mul_le_mono_nonneg_r; lia).
    assert (Ho : 0 <= off) by (subst off; lia).
    assert (Ho' : (off + 1) * (D / K) <= b * R * C * K * (D / K))
      by (apply Z.mul_le_mono_nonneg_r; [done|subst off; lia]).
    assert (0 <= off * (D / K)) by (apply Z.mul_nonneg_nonneg; lia).
    rewrite length_take, length_drop.
    assert (Z.to_nat (off * (D / K)) + Z.to_nat (D / K)
            <= length (data output))%nat.
    { apply Nat2Z.inj_le. rewrite Nat2Z.inj_add, !Z2Nat.id by lia. lia. }
    lia.
Qed.

Lemma map_outputs_rows_witness :
  exists m,
    map_outputs Demo.grid [Demo.large; Demo.square; Demo.odd] Demo.sizes 32
    = Ok m /\
    shape m = [3; 2] /\ Z.of_nat (length (data m)) = 3 * 2.
Proof.
  destruct (map_outputs Demo.grid [Demo.large; Demo.square; Demo.odd]
              Demo.sizes 32) as [m|] eqn:E; [|by vm_compute in E].
  exists m. split; [reflexivity|].
  assert (Hwf : wf_tensor Demo.grid).
  { split; [|done]. repeat constructor; by vm_compute. }
  destruct (map_outputs_rows Demo.grid [Demo.large; Demo.square; Demo.odd]
              Demo.sizes 32 1 2 3 4 m Hwf eq_refl E) as (_ & Hs & Hl).
  split; [exact Hs|exact Hl].
Defined.

(** ** More on [_roialign_coords] and [roialign] *)

(** X8. Asked for no sample point, [_roialign_coords] returns the empty
    [0 x 2] array whatever the box: the spacings, divisions by the zero
    count, are never used. *)
Theorem roialign_coords_no_points (b : box) :
  _roialign_coords b 0 = Tensor [0; 2] [].
Proof. reflexivity. Qed.

Lemma sample_offset_bounds (w n j : Q) :
  (0 <= w)%Q -> (0 < n)%Q -> (0 <= j)%Q -> (j + 1 <= n)%Q ->
  (w / n / 2 <= w * (j + (1 # 2)) / n)%Q /\
  (w * (j + (1 # 2)) / n <= w - w / n / 2)%Q.
Proof.
  intros Hw Hn Hj Hjn.
  assert (Hnz : ~ (n == 0)%Q) by (intros E; rewrite E in Hn; lra).
  set (u := (w / n)%Q).
  assert (Hu : (0 <= u)%Q).
  { subst u. apply Qle_shift_div_l; [done|]. lra. }
  assert (E1 : (w * (j + (1 # 2)) / n == u * j + u / 2)%Q)
    by (subst u; field; done).
  assert (E2 : (w == u * n)%Q) by (subst u; field; done).
  assert (H1 : (0 <= u * j)%Q) by (by apply Qmult_le_0_compat).
  assert (H2 : (u * (j + 1) <= u * n)%Q).
  { rewrite !(Qmult_comm u). by apply Qmult_le_compat_r. }
  rewrite E1. split.
  - unfold Qdiv in *. change (/ 2)%Q with (1 # 2)%Q in *. lra.
  - rewrite E2 at 1.
    assert (E3 : (u * (j + 1) == u * j + u)%Q) by ring.
    rewrite E3 in H2.
    unfold Qdiv in *. change (/ 2)%Q with (1 # 2)%Q in *.
    set (a := (u * j)%Q) in *. set (c := (u * n)%Q) in *. lra.
Qed.

(** X9. For a box of non-negative width and height, every sample point
    of [_roialign_coords], as [roialign] calls it, lies inside the box, at
    least half a sample spacing away from each edge (in exact
    arithmetic). *)
Theorem roialign_coords_inside_box (b : box) (pool tiles j k : Z) :
  (0 <= bw b)%Q -> (0 <= bh b)%Q ->
  0 <= j < pool * tiles -> 0 <= k < pool * tiles ->
  exists x y : Q,
    tget (_roialign_coords b (tiles * pool)) [k * (pool * tiles) + j; 0]
    = Some x /\
    tget (_roialign_coords b (tiles * pool)) [k * (pool * tiles) + j; 1]
    = Some y /\
    (bx b + bw b / inject_Z (pool * tiles) / 2 <= x)%Q /\
    (x <= bx b + bw b - bw b / inject_Z (pool * tiles) / 2)%Q /\
    (by_ b + bh b / inject_Z (pool * tiles) / 2 <= y)%Q /\
    (y <= by_ b + bh b - bh b / inject_Z (pool * tiles) / 2)%Q.
Proof.
  intros Hw Hh Hj Hk.
  destruct (roialign_coords_point_at b pool tiles j k Hj Hk)
    as (x & y & Hx & Hy & Ex & Ey).
  exists x, y. split; [exact Hx|]. split; [exact Hy|].
  set (n := inject_Z (pool * tiles)) in *.
  assert (Hn : (0 < n)%Q).
  { subst n. change 0%Q with (inject_Z 0). rewrite <- Zlt_Qlt. lia. }
  assert (Hb : forall i : Z, 0 <= i < pool * tiles ->
            (0 <= inject_Z i)%Q /\ (inject_Z i + 1 <= n)%Q).
  { intros i Hi. split.
    - change 0%Q with (inject_Z 0). rewrite <- Zle_Qle. lia.
    - subst n. change 1%Q with (inject_Z 1).
      rewrite <- inject_Z_plus, <- Zle_Qle. lia. }
  destruct (Hb j Hj) as [Hj0 Hj1]. destruct (Hb k Hk) as [Hk0 Hk1].
  destruct (sample_offset_bounds (bw b) n (inject_Z j) Hw Hn Hj0 Hj1)
    as [X1 X2].
  destruct (sample_offset_bounds (bh b) n (inject_Z k) Hh Hn Hk0 Hk1)
    as [Y1 Y2].
  rewrite Ex, Ey.
  set (dx := (bw b * (inject_Z j + (1 # 2)) / n)%Q) in *.
  set (dy := (bh b * (inject_Z k + (1 # 2)) / n)%Q) in *.
  set (mx := (bw b / n / 2)%Q) in *. set (my := (bh b / n / 2)%Q) in *.
  repeat split; lra.
Qed.

Lemma roialign_coords_inside_box_witness :
  exists x y : Q,
    tget (_roialign_coords (Box 10 20 6 4) (2 * 1)) [0 * (1 * 2) + 1; 0]
    = Some x /\
    tget (_roialign_coords (Box 10 20 6 4) (2 * 1)) [0 * (1 * 2) + 1; 1]
    = Some y /\
    (10 + 6 / inject_Z (1 * 2) / 2 <= x)%Q /\
    (x <= 10 + 6 - 6 / inject_Z (1 * 2) / 2)%Q /\
    (20 + 4 / inject_Z (1 * 2) / 2 <= y)%Q /\
    (y <= 20 + 4 - 4 / inject_Z (1 * 2) / 2)%Q.
Proof.
  apply (roialign_coords_inside_box (Box 10 20 6 4) 1 2 1 0);
    [by vm_compute|by vm_compute|lia|lia].
Defined.

Lemma tget_matrix {T} (t : tensor T) (n c i j : Z) :
  shape t = [n; c] -> 0 <= i < n -> 0 <= j < c ->
  tget t [i; j] = data t !! Z.to_nat (i * c + j).
Proof.
  intros Hs Hi Hj. unfold tget. rewrite Hs. cbn [length].
  rewrite decide_True by done. by rewrite ravel2 by lia.
Qed.

Lemma tget_points {T} (d : list T) (m p j : Z) :
  0 <= p < m -> 0 <= j < 2 ->
  tget (Tensor [1; m; 2] d) [0; p; j] = d !! Z.to_nat (p * 2 + j).
Proof.
  intros Hp Hj. unfold tget. cbn [shape data length].
  rewrite decide_True by done.
  assert (E : ravel [1; m; 2] [0; p; j] 0 = Some (p * 2 + j))
    by ravel_in_bounds.
  by rewrite E.
Qed.

(** Entry [c] of sample point [k * n + j] of box [i] in the stacked,
    flattened coordinates. *)
Lemma stacked_coords_lookup (boxes : list box) (n : Z) (i : nat) (b : box)
    (p c : Z) (x : Q) :
  0 <= n -> boxes !! i = Some b -> 0 <= p < n * n -> 0 <= c < 2 ->
  tget (_roialign_coords b n) [p; c] = Some x ->
  mjoin ((fun x => data (_roialign_coords x n)) <$> boxes)
    !! Z.to_nat ((Z.of_nat i * (n * n) + p) * 2 + c) = Some x.
Proof.
  intros Hn Hi Hp Hc Hx.
  rewrite (tget_matrix _ (n * n) 2) in Hx
    by (by rewrite ?roialign_coords_shape).
  replace (Z.to_nat ((Z.of_nat i * (n * n) + p) * 2 + c))
    with (i * (2 * (Z.to_nat n * Z.to_nat n)) + Z.to_nat (p * 2 + c))%nat
    by nia.
  apply (join_lookup_Some_same_length' (2 * (Z.to_nat n * Z.to_nat n))).
  - apply Forall_fmap, Forall_forall. intros a _. cbn.
    apply roialign_coords_length.
  - nia.
  - exists (data (_roialign_coords b n)).
    by rewrite list_lookup_fmap, Hi.
Qed.

(** X10. What [roialign] hands to the interpolation: one call, on the
    feature grid, with a [1 x N*n*n x 2] array of query points, [n] being
    [pool * tiles]; for a positive field and in exact arithmetic, point
    [(i*n + k)*n + j] is sample point [(j, k)] of box [i] brought from
    pixels to feature-map coordinates,
    [((x + w*(j + 1/2)/n - field/2) / field,
      (y + h*(k + 1/2)/n - field/2) / field)]. The result of the call,
    reshaped, is the result of [roialign]. *)
Theorem roialign_queries
    (interp : tensor Q -> tensor Q -> result (tensor Q))
    (features : tensor Q) (boxes : list box) (field : Q) (pool tiles : Z) :
  0 < pool * tiles -> (0 < field)%Q ->
  exists q : tensor Q,
    roialign interp features boxes field pool tiles
    = (interpolated ← interp features q;
       channels ← or_raise (IndexError "shape[-1]") (last (shape features));
       tf_reshape interpolated
         [Z.of_nat (length boxes); pool * tiles; pool * tiles; channels]) /\
    shape q
    = [1; Z.of_nat (length boxes) * (pool * tiles * (pool * tiles)); 2] /\
    forall (i : nat) (b : box) (j k : Z),
      boxes !! i = Some b -> 0 <= j < pool * tiles -> 0 <= k < pool * tiles ->
      exists x y : Q,
        tget q [0; (Z.of_nat i * (pool * tiles) + k) * (pool * tiles) + j; 0]
        = Some x /\
        tget q [0; (Z.of_nat i * (pool * tiles) + k) * (pool * tiles) + j; 1]
        = Some y /\
        (x == (bx b + bw b * (inject_Z j + (1 # 2)) / inject_Z (pool * tiles)
               - field / 2) / field)%Q /\
        (y == (by_ b + bh b * (inject_Z k + (1 # 2)) / inject_Z (pool * tiles)
               - field / 2) / field)%Q.
Proof.
  intros Hpt _. unfold roialign.
  assert (Hcomm : tiles * pool = pool * tiles) by lia.
  set (n := pool * tiles) in *. set (N := Z.of_nat (length boxes)).
  set (coords := fun x => _roialign_coords x (tiles * pool)).
  set (offsets := tmap _ (vectorized_map coords _ boxes)).
  assert (Hlen : Z.of_nat (length (data offsets)) = N * (n * n) * 2).
  { subst offsets coords. unfold tmap, vectorized_map. cbn [data].
    rewrite length_fmap.
    rewrite (join_data_length _ _
               (2 * (Z.to_nat (tiles * pool) * Z.to_nat (tiles * pool)))%nat)
      by (intros x; apply roialign_coords_length).
    rewrite Hcomm. subst N. nia. }
  rewrite (tf_reshape_points offsets (N * (n * n))) by (subst N; nia).
  rewrite bind_Ok.
  exists (Tensor [1; N * (n * n); 2] (data offsets)).
  split; [done|]. split; [done|].
  intros i b j k Hi Hj Hk.
  destruct (roialign_coords_point_at b pool tiles j k Hj Hk)
    as (x & y & Hx & Hy & Ex & Ey).
  fold n in Hx, Hy, Ex, Ey.
  pose proof (lookup_lt_Some _ _ _ Hi) as HiN.
  assert (Hp : 0 <= k * n + j < n * n) by nia.
  assert (Hq : 0 <= (Z.of_nat i * n + k) * n + j < N * (n * n)).
  { subst N. split; [nia|].
    assert (Z.of_nat i + 1 <= Z.of_nat (length boxes)) by lia.
    assert ((Z.of_nat i + 1) * (n * n) <= Z.of_nat (length boxes) * (n * n))
      by (apply Z.mul_le_mono_nonneg_r; nia).
    nia. }
  exists ((x - field / 2) / field)%Q, ((y - field / 2) / field)%Q.
  assert (G : forall c v, 0 <= c < 2 ->
            tget (_roialign_coords b (tiles * pool)) [k * n + j; c] = Some v ->
            tget (Tensor [1; N * (n * n); 2] (data offsets))
              [0; (Z.of_nat i * n + k) * n + j; c]
            = Some ((v - field / 2) / field)%Q).
  { intros c v Hc Hv. rewrite tget_points by done.
    subst offsets coords. unfold tmap, vectorized_map. cbn [data].
    rewrite list_lookup_fmap.
    replace (((Z.of_nat i * n + k) * n + j) * 2 + c)
      with ((Z.of_nat i * (n * n) + (k * n + j)) * 2 + c) by ring.
    rewrite Hcomm in *.
    by rewrite (stacked_coords_lookup boxes n i b (k * n + j) c v)
      by (done || lia). }
  split; [apply G; [lia|done]|]. split; [apply G; [lia|done]|].
  split; [by rewrite Ex|by rewrite Ey].
Qed.

Lemma roialign_queries_witness :
  exists q : tensor Q,
    roialign bilinear_xy (Tensor [1; 2; 2; 1] [1; 2; 3; 4]%Q)
      [Box 0 0 64 64; Box 16 16 32 32] 32 1 2
    = (interpolated ← bilinear_xy (Tensor [1; 2; 2; 1] [1; 2; 3; 4]%Q) q;
       channels ← or_raise (IndexError "shape[-1]") (Some 1);
       tf_reshape interpolated [2; 1 * 2; 1 * 2; channels]) /\
    exists x y : Q,
      tget q [0; (1 * (1 * 2) + 0) * (1 * 2) + 1; 0] = Some x /\
      tget q [0; (1 * (1 * 2) + 0) * (1 * 2) + 1; 1] = Some y /\
      (x == 3 # 4)%Q /\ (y == 1 # 4)%Q.
Proof.
  destruct (roialign_queries bilinear_xy (Tensor [1; 2; 2; 1] [1; 2; 3; 4]%Q)
              [Box 0 0 64 64; Box 16 16 32 32] 32 1 2)
    as (q & Hr & _ & Hq); [lia|reflexivity|].
  exists q. split; [exact Hr|].
  destruct (Hq 1%nat (Box 16 16 32 32) 1 0 eq_refl) as (x & y & Hx & Hy & Ex & Ey);
    [lia|lia|].
  exists x, y. split; [exact Hx|]. split; [exact Hy|].
  split; [by rewrite Ex|by rewrite Ey].
Defined.

(** ** [CustomCallback.on_epoch_end] *)

(** The callback on a model with seven metrics or more, and with
    fewer. *)
Lemma on_epoch_end_run (epoch : Z) (logs : option (gmap string Q))
    (st : train_state) :
  on_epoch_end epoch logs st
  = (if (7 <=? length (standard st))%nat then Ok ()
     else Raise (IndexError "standard"),
     {| weights := weights st; iterations := iterations st;
        standard := (reset_states <$> take 7 (standard st))
                    ++ drop 7 (standard st) |}).
Proof.
  destruct st as [W it s].
  destruct s as [|m0 [|m1 [|m2 [|m3 [|m4 [|m5 [|m6 rest]]]]]]]; reflexivity.
Qed.

Lemma reset_lookup (s : list Metric) (i : nat) :
  ((reset_states <$> take 7 s) ++ drop 7 s) !! i
  = (fun m => if (i <? 7)%nat then reset_states m else m) <$> s !! i.
Proof.
  destruct (Nat.ltb_spec i 7) as [Hi|Hi].
  - destruct (s !! i) as [m|] eqn:E.
    + rewrite lookup_app_l
        by (rewrite length_fmap, length_take; apply lookup_lt_Some in E; lia).
      by rewrite list_lookup_fmap, lookup_take_lt, E.
    + apply lookup_ge_None in E. apply lookup_ge_None.
      rewrite length_app, length_fmap, length_take, length_drop. lia.
  - destruct (decide (length s <= 7)%nat).
    + rewrite !(proj2 (lookup_ge_None _ _)); [done|lia|].
      rewrite length_app, length_fmap, length_take, length_drop. lia.
    + rewrite lookup_app_r by (rewrite length_fmap, length_take; lia).
      rewrite length_fmap, length_take, lookup_drop.
      replace (7 + (i - 7 `min` length s))%nat with i by lia.
      by destruct (s !! i).
Qed.

(** X11. [on_epoch_end] resets the first seven metrics of the model and
    nothing else: each keeps its name and its reduction and forgets its
    observations; later metrics, the variables and the optimizer's
    counter are as before. With seven metrics or more it returns; with
    fewer it raises [IndexError], after resetting those there are. The
    epoch number and the logs play no part. *)
Theorem on_epoch_end_resets (epoch : Z) (logs : option (gmap string Q))
    (st : train_state) :
  weights (on_epoch_end epoch logs st).2 = weights st /\
  iterations (on_epoch_end epoch logs st).2 = iterations st /\
  (forall i,
     standard (on_epoch_end epoch logs st).2 !! i
     = (fun m => if (i <? 7)%nat then reset_states m else m)
         <$> standard st !! i) /\
  ((7 <= length (standard st))%nat ->
   (on_epoch_end epoch logs st).1 = Ok ()) /\
  ((length (standard st) < 7)%nat ->
   (on_epoch_end epoch logs st).1 = Raise (IndexError "standard")).
Proof.
  rewrite on_epoch_end_run. cbn [fst snd weights iterations standard].
  split; [done|]. split; [done|]. split; [apply reset_lookup|].
  split; intros H.
  - by rewrite (proj2 (Nat.leb_le _ _)) by lia.
  - by rewrite (proj2 (Nat.leb_gt _ _)) by lia.
Qed.

(** X12. Running the callback twice is running it once. *)
Theorem on_epoch_end_idempotent (e1 e2 : Z)
    (l1 l2 : option (gmap string Q)) (st : train_state) :
  (on_epoch_end e1 l1 ≫= fun _ => on_epoch_end e2 l2) st
  = on_epoch_end e1 l1 st.
Proof.
  unfold mbind, M_bind. rewrite (on_epoch_end_run e1).
  destruct (7 <=? length (standard st))%nat eqn:E; [|done].
  rewrite on_epoch_end_run. cbn [weights iterations standard].
  apply Nat.leb_le in E.
  rewrite length_app, length_fmap, length_take, length_drop.
  rewrite (proj2 (Nat.leb_le _ _)) by lia.
  assert (Hs : forall s : list Metric,
            (reset_states <$> take 7 ((reset_states <$> take 7 s) ++ drop 7 s))
            ++ drop 7 ((reset_states <$> take 7 s) ++ drop 7 s)
            = (reset_states <$> take 7 s) ++ drop 7 s).
  { intros s. apply list_eq. intros i. rewrite !reset_lookup.
    destruct (i <? 7)%nat; by destruct (s !! i). }
  by rewrite Hs.
Qed.

(** ** More on [train_step] *)

Lemma apply_gradients_frame opt it (W : gmap string Q)
    (gv : list (option Q * string)) (v : string) :
  v ∉ gv.*2 -> foldl (apply_gradient opt it) W gv !! v = W !! v.
Proof.
  revert W. induction gv as [|[g x] gv IH]; intros W Hv; [done|].
  rewrite fmap_cons in Hv. apply not_elem_of_cons in Hv as [Hne Hv].
  cbn [foldl]. rewrite IH by done. unfold apply_gradient; cbn [fst snd].
  destruct g; [|done]. by rewrite lookup_alter_ne.
Qed.

Lemma apply_gradients_dom opt it (W : gmap string Q)
    (gv : list (option Q * string)) :
  dom (foldl (apply_gradient opt it) W gv) = dom W.
Proof.
  revert W. induction gv as [|[g x] gv IH]; intros W; [done|].
  cbn [foldl]. rewrite IH. unfold apply_gradient; cbn [fst snd].
  destruct g; [|done]. apply dom_alter_L.
Qed.

Lemma gradient_vars ext target W (vars : list string) :
  (zip (gradient ext target W vars) vars).*2 = vars.
Proof. apply snd_zip. unfold gradient. by rewrite length_fmap. Qed.

Section TrainStepMore.
Variable ext : Externals.
Variable globals : gmap string FasterRCNN.
Variable self : FasterRCNN.

Local Abbreviation bw := (trainable_weights (backbone self)).
Local Abbreviation rw := (trainable_weights (rpnetwork self)).
Local Abbreviation fw := (trainable_weights (fastrcnn self)).

(** X13. The optional third item of the data, the sample weights, is
    unpacked and never used: the step is the same with and without
    it. *)
Theorem train_step_ignores_sample_weight (rgb : tensor Q) (boxes : list box)
    (sample_weight : tensor Q) :
  train_step ext globals self (Data3 rgb boxes sample_weight)
  = train_step ext globals self (Data2 rgb boxes).
Proof. reflexivity. Qed.

Lemma step_weights_frame (inp : Inputs) (W : gmap string Q) (it : Z) :
  dom (step_weights ext globals self inp W it) = dom W /\
  forall v, v ∉ bw ++ rw ++ fw ->
    step_weights ext globals self inp W it !! v = W !! v.
Proof.
  unfold step_weights. cbv zeta. split.
  - by rewrite !apply_gradients_dom.
  - intros v Hv. apply not_elem_of_app in Hv as [Hb Hv].
    apply not_elem_of_app in Hv as [Hr Hf].
    by rewrite !apply_gradients_frame by (by rewrite gradient_vars).
Qed.

End TrainStepMore.

Lemma tf_function_intro {A} (body : M A) (st : train_state) (a : A)
    (st' : train_state) :
  body st = (Ok a, st') -> tf_function body st = (Ok a, st').
Proof. unfold tf_function. by intros ->. Qed.

Lemma observes_length i args st :
  length (standard (observes i args st)) = length (standard st).
Proof. unfold observes; cbn [standard]. apply length_alter. Qed.

Lemma observes_lookup i args st j :
  standard (observes i args st) !! j
  = (fun m => if decide (i = j) then update_state m args else m)
      <$> standard st !! j.
Proof.
  unfold observes; cbn [standard]. destruct (decide (i = j)) as [<-|Hne].
  - by rewrite list_lookup_alter_eq.
  - rewrite list_lookup_alter_ne by done. by destruct (standard st !! j).
Qed.

Section TrainStepRuns.
Variable ext : Externals.
Variable globals : gmap string FasterRCNN.
Variable self : FasterRCNN.

Local Abbreviation bw := (trainable_weights (backbone self)).
Local Abbreviation rw := (trainable_weights (rpnetwork self)).
Local Abbreviation fw := (trainable_weights (fastrcnn self)).

Ltac go_lift H x :=
  rewrite bindM_lift in H;
  match type of H with
  | context [match ?r with Ok _ => _ | Raise _ => _ end] =>
      destruct r as [x|] eqn:?; [|discriminate H]
  end.

Ltac go_apply H :=
  rewrite bindM_apply_gradients in H;
  match type of H with
  | context [match ?r with Some _ => _ | None => _ end] =>
      destruct r eqn:?; [discriminate H|]
  end.

Ltac go_update H :=
  rewrite bindM_standard_update in H;
  match type of H with
  | context [match ?r with Some _ => _ | None => _ end] =>
      destruct r eqn:?; [|discriminate H]
  end.

(** Everything a step that returns has got through, and the metrics it
    leaves. *)
Lemma train_step_returns_metrics data st out st' :
  train_step ext globals self data st = (Ok out, st') ->
  exists inp p r i1 i2 obj scores,
    prepare ext self data = Ok inp /\
    proposal_stage ext self inp (weights st) = Ok p /\
    refinement_inputs ext self inp p (weights st) = Ok r /\
    iou ext (rpn_boxes r) (boxes inp) = Ok i1 /\
    iou ext (align_boxes r) (boxes inp) = Ok i2 /\
    tf_concat0 (rpn_obj_positive p) (rpn_obj_negative p) = Ok obj /\
    column obj 1 = Ok scores /\
    (7 <= length (standard st))%nat /\
    length (standard st') = length (standard st) /\
    forall i m,
      standard st !! i = Some m ->
      standard st' !! i
      = Some (if (i <? 7)%nat
              then update_state m
                     (metric_args (reduce_max ext i1.1) (reduce_max ext i2.1)
                        (rpn_obj_labels p) scores i)
              else m).
Proof.
  unfold train_step. intros H. apply tf_function_Ok in H.
  go_lift H inp. rewrite bindM_get_weights in H.
  go_lift H p. go_lift H r. go_lift H l.
  go_apply H. go_apply H. go_apply H.
  go_lift H i1. go_lift H i2.
  go_update H. go_update H. go_lift H obj. go_lift H scores.
  do 5 go_update H.
  rewrite bindM_get_standard in H. injection H as _ <-.
  exists inp, p, r, i1, i2, obj, scores. do 7 (split; [done|]).
  match goal with
  | E : standard ?s !! 6%nat = Some _ |- _ =>
      apply lookup_lt_Some in E; rewrite !observes_length in E;
      cbn [applied standard] in E
  end.
  split; [lia|]. split.
  - rewrite !observes_length. done.
  - intros i mi Hm. rewrite !observes_lookup. cbn [applied standard].
    rewrite Hm. cbn [fmap option_fmap option_map].
    destruct i as [|[|[|[|[|[|[|i]]]]]]]; reflexivity.
Qed.


(** X16. A step that returns has given each of the seven metrics exactly
    one observation and has touched no other metric: the largest IoU of
    the proposal boxes to metric 0, that of the refined boxes to metric
    1, and the objectness labels with the score column (column 1 of the
    concatenated objectness) to each of metrics 2 to 6. *)
Theorem train_step_updates_metrics (data : train_data) (st : train_state)
    (out : gmap string Q) (st' : train_state) :
  train_step ext globals self data st = (Ok out, st') ->
  exists inp p r i1 i2 obj scores,
    prepare ext self data = Ok inp /\
    proposal_stage ext self inp (weights st) = Ok p /\
    refinement_inputs ext self inp p (weights st) = Ok r /\
    iou ext (rpn_boxes r) (boxes inp) = Ok i1 /\
    iou ext (align_boxes r) (boxes inp) = Ok i2 /\
    tf_concat0 (rpn_obj_positive p) (rpn_obj_negative p) = Ok obj /\
    column obj 1 = Ok scores /\
    (7 <= length (standard st))%nat /\
    length (standard st') = length (standard st) /\
    forall i m,
      standard st !! i = Some m ->
      standard st' !! i
      = Some (if (i <? 7)%nat
              then update_state m
                     (metric_args (reduce_max ext i1.1) (reduce_max ext i2.1)
                        (rpn_obj_labels p) scores i)
              else m).
Proof. apply train_step_returns_metrics. Qed.

(** X17. The callback undoes what a step does to the metrics: after a
    step that returns, from a model whose first seven metrics hold no
    observation, [on_epoch_end] returns and the metrics are the ones
    before the step; the variables and the counter stay as the step
    left them. *)
Theorem epoch_end_after_step (data : train_data) (st : train_state)
    (out : gmap string Q) (st1 : train_state) (epoch : Z)
    (logs : option (gmap string Q)) :
  train_step ext globals self data st = (Ok out, st1) ->
  (forall i m, (i < 7)%nat -> standard st !! i = Some m -> observed m = []) ->
  exists st2,
    on_epoch_end epoch logs st1 = (Ok (), st2) /\
    standard st2 = standard st /\
    weights st2 = weights st1 /\ iterations st2 = iterations st1.
Proof.
  intros H Hfresh.
  destruct (train_step_returns_metrics data st out st1 H)
    as (inp & p & r & i1 & i2 & obj & scores & _ & _ & _ & _ & _ & _ & _
        & Hlen & Hlen1 & Hm).
  rewrite on_epoch_end_run.
  rewrite (proj2 (Nat.leb_le _ _)) by lia.
  eexists. split; [reflexivity|]. cbn [weights iterations standard].
  split; [|done]. apply list_eq. intros i. rewrite reset_lookup.
  destruct (standard st !! i) as [m|] eqn:E.
  - rewrite (Hm i m E). cbn [fmap option_fmap option_map].
    destruct (Nat.ltb_spec i 7) as [Hi|Hi]; [|done].
    pose proof (Hfresh i m Hi E) as Ho.
    destruct m as [nm obs red]. cbn in Ho. subst obs. done.
  - assert (standard st1 !! i = None) as ->; [|done].
    apply lookup_ge_None. apply lookup_ge_None in E. lia.
Qed.
End TrainStepRuns.

Section ProposalLabels.
Variable ext : Externals.
Variable self : FasterRCNN.

Ltac inv_bind H :=
  match type of H with
  | (?m ≫= _) = Ok _ =>
      let E := fresh "E" in
      destruct m eqn:E; [rewrite bind_Ok in H|discriminate H]
  end.

Lemma ones_then_zeros (n m : Z) :
  tf_concat0 (tf_ones n) (tf_zeros m)
  = Ok (Tensor [n + m]
          (replicate (Z.to_nat n) 1%Q ++ replicate (Z.to_nat m) 0%Q)).
Proof. unfold tf_concat0, tf_ones, tf_zeros. cbn [shape data]. done. Qed.

(** X18. The objectness labels of a step: with a softmax that keeps the
    shape of its argument, the label vector is one 1 per positive anchor
    followed by one 0 per negative anchor. *)
Theorem proposal_labels (inp : Inputs) (W : gmap string Q) (p : Proposal) :
  (forall t, shape (softmax ext t) = shape t) ->
  proposal_stage ext self inp W = Ok p ->
  rpn_obj_labels p
  = Tensor [Z.of_nat (length (positive_anchors inp))
            + Z.of_nat (length (negative_anchors inp))]
      (replicate (length (positive_anchors inp)) 1%Q
       ++ replicate (length (negative_anchors inp)) 0%Q).
Proof.
  intros Hsoft H. unfold proposal_stage in H. cbv zeta in H.
  do 4 inv_bind H.
  match type of H with
  | context [softmax ext <$> map_outputs ?o (positive_anchors inp) ?px ?f] =>
      destruct (map_outputs o (positive_anchors inp) px f)
        as [m1|] eqn:Hm1; [|discriminate H];
      destruct (map_outputs o (negative_anchors inp) px f)
        as [m2|] eqn:Hm2; [|discriminate H]
  end.
  cbn [fmap result_fmap] in H. rewrite !bind_Ok in H.
  inv_bind H.
  unfold shape0 in H. rewrite !Hsoft in H.
  rewrite (map_outputs_shape0 _ _ _ _ _ Hm1) in H.
  rewrite (map_outputs_shape0 _ _ _ _ _ Hm2) in H.
  cbn [or_raise] in H. rewrite !bind_Ok in H.
  rewrite ones_then_zeros, bind_Ok in H.
  repeat inv_bind H. injection H as <-. cbn [rpn_obj_labels].
  by rewrite !Nat2Z.id.
Qed.
End ProposalLabels.

(** *** On the concrete instance *)


Lemma train_step_updates_metrics_witness :
  exists out st',
    train_step Demo.ext Demo.with_model Demo.self Demo.data Demo.st0
    = (Ok out, st') /\
    length (standard st') = 7%nat.
Proof.
  destruct demo_step_returns as (out & st' & E).
  destruct (train_step_updates_metrics Demo.ext Demo.with_model Demo.self
              Demo.data Demo.st0 out st' E)
    as (_ & _ & _ & _ & _ & _ & _ & _ & _ & _ & _ & _ & _ & _ & _ & Hlen & _).
  exists out, st'. split; [exact E|]. rewrite Hlen. reflexivity.
Defined.

Lemma epoch_end_after_step_witness :
  exists out st1 st2,
    train_step Demo.ext Demo.with_model Demo.self Demo.data Demo.st0
    = (Ok out, st1) /\
    on_epoch_end 0 None st1 = (Ok (), st2) /\
    standard st2 = init_standard Demo.ext.
Proof.
  destruct demo_step_returns as (out & st1 & E).
  destruct (epoch_end_after_step Demo.ext Demo.with_model Demo.self
              Demo.data Demo.st0 out st1 0 None E) as (st2 & H2 & Hs & _).
  - intros i m Hi Hm.
    destruct i as [|[|[|[|[|[|[|i]]]]]]]; [injection Hm as <-; reflexivity..|lia].
  - exists out, st1, st2. split; [exact E|]. split; [exact H2|exact Hs].
Defined.

Lemma proposal_labels_witness :
  exists p,
    proposal_stage Demo.ext Demo.self Demo.inp (weights Demo.st0) = Ok p /\
    rpn_obj_labels p = Tensor [1 + 1] [1%Q; 0%Q].
Proof.
  destruct (proposal_stage Demo.ext Demo.self Demo.inp (weights Demo.st0))
    as [p|] eqn:E; [|by vm_compute in E].
  exists p. split; [reflexivity|].
  exact (proposal_labels Demo.ext Demo.self Demo.inp (weights Demo.st0) p
           (fun t => eq_refl) E).
Defined.
